(** * Mode registry and tool-permission resolution (src/shared/modes.ts)

    A shallow embedding of the mode registry ([modes], [getModeBySlug],
    [getModeConfig], [getAllModes]) and of the permission resolver
    ([doesFileMatchRegex], [isToolAllowedForMode]), with the properties the
    specification states about them. *)

From Stdlib Require Import ZArith Ascii String.
From stdpp Require Import base option list strings gmap.

(** ** JavaScript values and control flow *)

(** The values a loosely typed [Record<string, any>] of tool parameters holds:
    absent fields, [null], booleans, strings (what a parsed tool call
    carries) and arrays (an operations list). *)
Module Js.

#[warnings="-register-all"]
Inductive value : Type :=
| Undefined
| Null
| Bool (b : bool)
| Str (s : string)
| Arr (elems : list value).

(** ToBoolean: [undefined], [null], [false] and the empty string are falsy;
    every object (so every array) is truthy. *)
Definition truthy (v : value) : bool :=
  match v with
  | Undefined | Null => false
  | Bool b => b
  | Str s => negb (String.eqb s "")
  | Arr _ => true
  end.

(** ToString, as a template literal or [RegExp.prototype.test] applies it.
    An array joins its elements with commas, [null] and [undefined]
    elements giving the empty string. *)
Fixpoint to_string (v : value) : string :=
  match v with
  | Undefined => "undefined"
  | Null => "null"
  | Bool true => "true"
  | Bool false => "false"
  | Str s => s
  | Arr elems =>
      let elem (e : value) : string :=
        match e with
        | Undefined | Null => ""
        | _ => to_string e
        end in
      (fix join (l : list value) : string :=
         match l with
         | [] => ""
         | [e] => elem e
         | e :: rest => elem e +:+ "," +:+ join rest
         end) elems
  end.

(** [obj?.key] on an optional record: a missing record or a missing key
    reads as [undefined]. *)
Definition get (obj : option (gmap string value)) (key : string) : value :=
  match obj with
  | Some fields => default Undefined (fields !! key)
  | None => Undefined
  end.

(** [Array.prototype.includes] on an array of strings. *)
Definition includes (l : list string) (x : string) : bool :=
  existsb (String.eqb x) l.

(** [Array.prototype.findIndex]: the first index whose element satisfies
    the predicate, or [-1]. *)
Fixpoint findIndex {A : Type} (p : A -> bool) (l : list A) : Z :=
  match l with
  | [] => (-1)%Z
  | x :: rest => if p x then 0%Z else
      let i := findIndex p rest in
      if (i =? -1)%Z then (-1)%Z else (i + 1)%Z
  end.

(** Exceptions the modelled code raises or catches. *)
Inductive exn : Type :=
| SyntaxError (message : string)
| Error (message : string)
| FileRestrictionError (message : string).

(** A computation either returns or throws. *)
Inductive completion (A : Type) : Type :=
| Return (a : A)
| Throw (e : exn).
Global Arguments Return {A} a.
Global Arguments Throw {A} e.

Definition bind {A B : Type} (c : completion A) (k : A -> completion B)
  : completion B :=
  match c with
  | Return a => k a
  | Throw e => Throw e
  end.

(** [try { body } catch (error) { handler }]. *)
Definition try_catch {A : Type} (body : completion A)
    (handler : exn -> completion A) : completion A :=
  match body with
  | Return a => Return a
  | Throw e => handler e
  end.

End Js.

(** ** The host's regular expressions

    [new RegExp(pattern)] and [regex.test(s)] belong to the JavaScript
    runtime, not to this program: the resolver is verified against any
    engine.  The constructor throws a [SyntaxError] on a malformed pattern;
    the empty pattern is well-formed in ECMAScript. *)
Class RegExpHost : Type := {
  regex : Type;
  RegExp : string -> Js.completion regex;
  regex_test : regex -> string -> bool;
  RegExp_throws_SyntaxError :
    forall pattern e, RegExp pattern = Js.Throw e -> exists msg, e = Js.SyntaxError msg;
  RegExp_empty : exists r, RegExp "" = Js.Return r
}.

(** ** Data model (../schemas and ./tools) *)

(** Modelled from the spec: the tool-group identifiers, declared in
    ../schemas, which is not under src/.  These are the identifiers the
    built-in modes use and the spec lists. *)
Inductive ToolGroup : Type :=
| read | edit | browser | command | mcp | review.

Global Instance ToolGroup_eq_dec : EqDecision ToolGroup.
Proof. solve_decision. Defined.

Record ToolGroupConfig : Type := { tools : list string }.

Record GroupOptions : Type := {
  fileRegex : option string;
  description : option string
}.

(** A group entry is a bare identifier or a pair [[group, options]]. *)
Inductive GroupEntry : Type :=
| Bare (g : ToolGroup)
| Scoped (g : ToolGroup) (options : GroupOptions).

Record ModeConfig : Type := {
  slug : string;
  name : string;
  roleDefinition : string;
  customInstructions : option string;
  groups : list GroupEntry
}.

(** The constants imported from ./tools and ./experiments, neither of which
    is under src/, and the free-text payload of the built-in modes (role
    definitions and the output of [formatCustomInstructions]), which is
    prompt templating.  [EXPERIMENT_IDS] is an object from names to
    identifiers. *)
Class Imports : Type := {
  TOOL_GROUPS : ToolGroup -> ToolGroupConfig;
  ALWAYS_AVAILABLE_TOOLS : list string;
  EXPERIMENT_IDS : list (string * string);
  builtinRole : string -> string;
  builtinInstructions : string -> string
}.

(** [Object.values]. *)
Definition Object_values {A B : Type} (o : list (A * B)) : list B := map snd o.

(** [toolRequirements] is declared [Record<string, boolean>] and optional,
    and the code also tests it against the literal [false]. *)
Inductive ToolRequirements : Type :=
| ReqUndefined
| ReqBoolean (b : bool)
| ReqRecord (entries : gmap string bool).

(** Truthiness of an optional string ([undefined] and [""] are falsy). *)
Definition truthy_string (s : option string) : bool :=
  match s with
  | Some s => negb (String.eqb s "")
  | None => false
  end.

Global Instance completion_ret : MRet Js.completion := @Js.Return.
Global Instance completion_bind : MBind Js.completion :=
  fun A B k c => Js.bind c k.

(** ** The registry and the resolver *)

Section Modes.

Context `{host : RegExpHost} `{imports : Imports}.

(** Helper to extract group name regardless of format. *)
Definition getGroupName (group : GroupEntry) : ToolGroup :=
  match group with
  | Bare g => g
  | Scoped g _ => g
  end.

(** Helper to get group options if they exist. *)
Definition getGroupOptions (group : GroupEntry) : option GroupOptions :=
  match group with
  | Bare _ => None
  | Scoped _ options => Some options
  end.

(** Helper to check if a file path matches a regex pattern.  A pattern the
    constructor rejects is caught and reported as no match. *)
Definition doesFileMatchRegex (filePath pattern : string) : Js.completion bool :=
  Js.try_catch
    (r ← RegExp pattern; mret (regex_test r filePath))
    (fun error => mret false).

(** The entries of the built-in [modes] array, in source order. *)
Definition codeMode : ModeConfig := {|
  slug := "code";
  name := "💻 Code";
  roleDefinition := builtinRole "code";
  groups := [Bare read; Bare edit; Bare browser; Bare command; Bare mcp; Bare review];
  customInstructions := Some (builtinInstructions "code")
|}.

Definition architectMode : ModeConfig := {|
  slug := "architect";
  name := "🏗️ Architect";
  roleDefinition := builtinRole "architect";
  groups := [
    Bare read;
    Scoped edit {| fileRegex := Some "\.md$"; description := Some "Markdown files only" |};
    Bare browser;
    Bare command;
    Bare mcp;
    Bare review ];
  customInstructions := Some (builtinInstructions "architect")
|}.

Definition askMode : ModeConfig := {|
  slug := "ask";
  name := "❓ Ask";
  roleDefinition := builtinRole "ask";
  groups := [Bare read; Bare browser; Bare mcp];
  customInstructions := Some (builtinInstructions "ask")
|}.

Definition debugMode : ModeConfig := {|
  slug := "debug";
  name := "🪲 Debug";
  roleDefinition := builtinRole "debug";
  groups := [Bare read; Bare edit; Bare browser; Bare command; Bare mcp];
  customInstructions := Some (builtinInstructions "debug")
|}.

Definition reviewerMode : ModeConfig := {|
  slug := "reviewer";
  name := "🧐 Reviewer";
  roleDefinition := builtinRole "reviewer";
  groups := [
    Bare read;
    Scoped edit {| fileRegex := Some "\.agent/review_response_.*\.md$";
                   description := Some "Review response files only" |};
    Bare browser;
    Bare command;
    Bare mcp;
    Bare review ];
  customInstructions := Some (builtinInstructions "reviewer")
|}.

Definition orchestratorMode : ModeConfig := {|
  slug := "orchestrator";
  name := "🪃 Orchestrator";
  roleDefinition := builtinRole "orchestrator";
  groups := [];
  customInstructions := Some (builtinInstructions "orchestrator")
|}.

(** Main modes configuration as an ordered array. *)
Definition modes : list ModeConfig :=
  [codeMode; architectMode; askMode; debugMode; reviewerMode; orchestratorMode].

(** [Array.prototype.find] with the predicate [mode.slug === slug]. *)
Definition findBySlug (s : string) (l : list ModeConfig) : option ModeConfig :=
  List.find (fun mode => String.eqb (slug mode) s) l.

Definition getModeBySlug (s : string) (customModes : option (list ModeConfig))
  : option ModeConfig :=
  (* Check custom modes first *)
  let customMode :=
    match customModes with
    | Some l => findBySlug s l
    | None => None
    end in
  match customMode with
  | Some customMode => Some customMode
  | None =>
      (* Then check built-in modes *)
      findBySlug s modes
  end.

Definition getModeConfig (s : string) (customModes : option (list ModeConfig))
  : Js.completion ModeConfig :=
  match getModeBySlug s customModes with
  | None => Js.Throw (Js.Error ("No mode found for slug: " +:+ s))
  | Some mode => Js.Return mode
  end.

(** The body of [customModes.forEach] in [getAllModes]: one custom mode
    applied to the working array. *)
Definition getAllModes_step (allModes : list ModeConfig) (customMode : ModeConfig)
  : list ModeConfig :=
  let index := Js.findIndex (fun mode => String.eqb (slug mode) (slug customMode)) allModes in
  if negb (index =? -1)%Z then
    (* Override existing mode *)
    <[Z.to_nat index := customMode]> allModes
  else
    (* Add new mode *)
    allModes ++ [customMode].

(** Get all available modes, with custom modes overriding built-in modes. *)
Definition getAllModes (customModes : option (list ModeConfig)) : list ModeConfig :=
  match customModes with
  | None | Some [] => modes
  | Some customModes =>
      (* Start with built-in modes *)
      let allModes := modes in
      (* Process custom modes *)
      fold_left getAllModes_step customModes allModes
  end.

(** Check if a mode is custom or an override. *)
Definition isCustomMode (s : string) (customModes : option (list ModeConfig)) : bool :=
  match customModes with
  | Some l => existsb (fun mode => String.eqb (slug mode) s) l
  | None => false
  end.

(** The message the [FileRestrictionError] constructor builds. *)
Definition FileRestrictionError (mode pattern : string) (description : option string)
    (filePath : string) : Js.exn :=
  Js.FileRestrictionError
    ("This mode (" +:+ mode +:+ ") can only edit files matching pattern: " +:+ pattern
     +:+ (if truthy_string description
          then " (" +:+ default "" description +:+ ")" else "")
     +:+ ". Got: " +:+ filePath).

(** The experiments gate of [isToolAllowedForMode]: it is entered only when
    an [experiments] record is supplied. *)
Definition experimentsDeny (tool : string) (experiments : option (gmap string bool)) : bool :=
  match experiments with
  | Some flags =>
      Js.includes (Object_values EXPERIMENT_IDS) tool
      && negb (default false (flags !! tool))
  | None => false
  end.

(** The tool-requirements gate of [isToolAllowedForMode]. *)
Definition requirementsDeny (tool : string) (toolRequirements : ToolRequirements) : bool :=
  match toolRequirements with
  | ReqRecord entries =>
      (* tool in toolRequirements && !toolRequirements[tool] *)
      match entries !! tool with
      | Some enabled => negb enabled
      | None => false
      end
  | ReqBoolean false =>
      (* If toolRequirements is a boolean false, all tools are disabled *)
      true
  | ReqBoolean true | ReqUndefined => false
  end.

(** The decision one group entry takes once its tool set contains the tool. *)
Definition groupDecision (mode : ModeConfig) (toolParams : option (gmap string Js.value))
    (group : GroupEntry) : Js.completion bool :=
  let groupName := getGroupName group in
  match getGroupOptions group with
  | None =>
      (* If there are no options, allow the tool *)
      Js.Return true
  | Some options =>
      (* For the edit group, check file regex if specified *)
      if bool_decide (groupName = edit) && truthy_string (fileRegex options) then
        let pattern := default "" (fileRegex options) in
        let filePath := Js.get toolParams "path" in
        if Js.truthy filePath
           && (Js.truthy (Js.get toolParams "diff")
               || Js.truthy (Js.get toolParams "content")
               || Js.truthy (Js.get toolParams "operations"))
        then
          matched ← doesFileMatchRegex (Js.to_string filePath) pattern;
          if negb matched
          then Js.Throw (FileRestrictionError (name mode) pattern (description options)
                           (Js.to_string filePath))
          else Js.Return true
        else Js.Return true
      else Js.Return true
  end.

(** The loop of [isToolAllowedForMode] over [mode.groups]: check if the tool
    is in any of the mode's groups and respects any group options. *)
Fixpoint forGroups (mode : ModeConfig) (tool : string)
    (toolParams : option (gmap string Js.value)) (gs : list GroupEntry)
  : Js.completion bool :=
  match gs with
  | [] => Js.Return false
  | group :: rest =>
      let groupConfig := TOOL_GROUPS (getGroupName group) in
      (* If the tool isn't in this group's tools, continue to next group *)
      if negb (Js.includes (tools groupConfig) tool)
      then forGroups mode tool toolParams rest
      else groupDecision mode toolParams group
  end.

Definition isToolAllowedForMode (tool modeSlug : string) (customModes : list ModeConfig)
    (toolRequirements : ToolRequirements)
    (toolParams : option (gmap string Js.value))
    (experiments : option (gmap string bool)) : Js.completion bool :=
  (* Always allow these tools *)
  if Js.includes ALWAYS_AVAILABLE_TOOLS tool then Js.Return true
  else if experimentsDeny tool experiments then Js.Return false
  (* Check tool requirements if any exist *)
  else if requirementsDeny tool toolRequirements then Js.Return false
  else
    match getModeBySlug modeSlug (Some customModes) with
    | None => Js.Return false
    | Some mode => forGroups mode tool toolParams (groups mode)
    end.

(** *** Arrays by reference

    [modes] is one array object that every caller shares, and [getAllModes]
    assigns into and pushes onto an array.  The store maps references to
    array contents; [modes] lives at [modesRef]. *)
Definition modesRef : nat := 0.

(** [[...a]]: a fresh array with the elements of the array at [a]. *)
Definition spread (a : nat) (σ : gmap nat (list ModeConfig))
  : option (nat * gmap nat (list ModeConfig)) :=
  elems ← σ !! a;
  let r := fresh (dom σ) in
  Some (r, <[r := elems]> σ).

(** The callback of [customModes.forEach], working on the array at
    [allModes]. *)
Definition forEach_callback (allModes : nat) (σ : gmap nat (list ModeConfig))
    (customMode : ModeConfig) : option (gmap nat (list ModeConfig)) :=
  elems ← σ !! allModes;
  let index := Js.findIndex (fun mode => String.eqb (slug mode) (slug customMode)) elems in
  if negb (index =? -1)%Z then
    Some (<[allModes := <[Z.to_nat index := customMode]> elems]> σ)
  else
    Some (<[allModes := elems ++ [customMode]]> σ).

Fixpoint forEach (callback : gmap nat (list ModeConfig) -> ModeConfig ->
                             option (gmap nat (list ModeConfig)))
    (l : list ModeConfig) (σ : gmap nat (list ModeConfig))
  : option (gmap nat (list ModeConfig)) :=
  match l with
  | [] => Some σ
  | x :: rest => σ' ← callback σ x; forEach callback rest σ'
  end.

(** [getAllModes] on the store: it returns the reference of the array it
    built. *)
Definition getAllModes_store (customModes : option (list ModeConfig))
    (σ : gmap nat (list ModeConfig)) : option (nat * gmap nat (list ModeConfig)) :=
  match customModes with
  | None | Some [] => spread modesRef σ
  | Some customModes =>
      '(allModes, σ1) ← spread modesRef σ;
      σ2 ← forEach (forEach_callback allModes) customModes σ1;
      Some (allModes, σ2)
  end.

(** *** The merge in the specification's words

    Start from the built-in sequence; for each custom mode, if its slug
    matches an existing entry, replace that entry in place, otherwise
    append. *)
Fixpoint spec_replaceOrAppend (custom : ModeConfig) (l : list ModeConfig)
  : list ModeConfig :=
  match l with
  | [] => [custom]
  | m :: rest =>
      if String.eqb (slug m) (slug custom) then custom :: rest
      else m :: spec_replaceOrAppend custom rest
  end.

Definition spec_getAll (customModes : list ModeConfig) : list ModeConfig :=
  fold_left (fun acc custom => spec_replaceOrAppend custom acc) customModes modes.

(** The slugs of [l] outside [seen], each at its first occurrence. *)
Fixpoint firstOccurrences (seen l : list string) : list string :=
  match l with
  | [] => []
  | s :: rest =>
      if Js.includes seen s then firstOccurrences seen rest
      else s :: firstOccurrences (s :: seen) rest
  end.

(** *** Grants

    What a mode grants: each declared group with the path pattern that
    scopes it, if any. *)
Definition grantsOf (mode : ModeConfig) : list (ToolGroup * option string) :=
  map (fun group => (getGroupName group, getGroupOptions group ≫= fileRegex))
      (groups mode).

End Modes.

(** The built-in catalog in the specification's words (4.2): the grants of
    each built-in mode, as a set. *)
Definition spec_grants (s : string) : option (list (ToolGroup * option string)) :=
  let full := [(read, None); (edit, None); (command, None); (browser, None); (mcp, None)] in
  if String.eqb s "code" then Some full
  else if String.eqb s "architect" then
    Some [(read, None); (edit, Some "\.md$"); (browser, None); (mcp, None)]
  else if String.eqb s "ask" then Some [(read, None); (browser, None); (mcp, None)]
  else if String.eqb s "debug" then Some full
  else if String.eqb s "reviewer" then
    Some [(read, None); (edit, Some "\.agent/review_response_.*\.md$"); (browser, None);
          (command, None); (mcp, None)]
  else if String.eqb s "orchestrator" then Some []
  else None.

(** Two grant lists denote the same set. *)
Definition sameGrants (a b : list (ToolGroup * option string)) : bool :=
  forallb (fun x => bool_decide (x ∈ b)) a && forallb (fun x => bool_decide (x ∈ a)) b.

(** ** A regular-expression engine for a fragment of ECMAScript

    Literal characters, escaped syntax characters, [.], the postfix [*] and
    the anchors [^] and [$]: the syntax the built-in patterns use.  It is an
    instance of [RegExpHost] for evaluating the resolver on concrete calls;
    syntax outside the fragment is rejected by this constructor. *)
Module Fragment.

Inductive atom : Type :=
| Lit (c : ascii)
| AnyChar.

Inductive term : Type :=
| One (a : atom)
| Star (a : atom)
| Bol
| Eol.

Inductive token : Type :=
| TLit (c : ascii)
| TDot
| TStar
| TBol
| TEol.

Definition chars (s : string) : list ascii := list_ascii_of_string s.

(** The characters a backslash may escape to themselves. *)
Definition isSyntaxChar (c : ascii) : bool :=
  existsb (Ascii.eqb c) (chars "^$\.*+?()[]{}|/").

(** The operators outside the fragment. *)
Definition isUnsupported (c : ascii) : bool :=
  existsb (Ascii.eqb c) (chars "+?()[]{}|").

Definition isLineTerminator (c : ascii) : bool :=
  Ascii.eqb c "010" || Ascii.eqb c "013".

(** Lexing: a backslash escapes a syntax character; a trailing backslash and
    any other escape or operator are rejected. *)
Fixpoint tokens (p : list ascii) : option (list token) :=
  match p with
  | [] => Some []
  | c :: rest =>
      if Ascii.eqb c "\" then
        match rest with
        | e :: rest' =>
            if isSyntaxChar e then cons (TLit e) <$> tokens rest' else None
        | [] => None
        end
      else if Ascii.eqb c "." then cons TDot <$> tokens rest
      else if Ascii.eqb c "*" then cons TStar <$> tokens rest
      else if Ascii.eqb c "^" then cons TBol <$> tokens rest
      else if Ascii.eqb c "$" then cons TEol <$> tokens rest
      else if isUnsupported c then None
      else cons (TLit c) <$> tokens rest
  end.

(** Parsing: [*] applies to the atom before it; with nothing to repeat (at
    the start, after an anchor or after another [*]) the pattern is
    malformed. *)
Fixpoint terms (ts : list token) : option (list term) :=
  match ts with
  | [] => Some []
  | TStar :: _ => None
  | TBol :: rest => cons Bol <$> terms rest
  | TEol :: rest => cons Eol <$> terms rest
  | TLit c :: rest =>
      match rest with
      | TStar :: rest' => cons (Star (Lit c)) <$> terms rest'
      | _ => cons (One (Lit c)) <$> terms rest
      end
  | TDot :: rest =>
      match rest with
      | TStar :: rest' => cons (Star AnyChar) <$> terms rest'
      | _ => cons (One AnyChar) <$> terms rest
      end
  end.

Definition parse (pattern : string) : option (list term) :=
  tokens (chars pattern) ≫= terms.

Definition accepts (a : atom) (c : ascii) : bool :=
  match a with
  | Lit x => Ascii.eqb x c
  | AnyChar => negb (isLineTerminator c)
  end.

(** Backtracking match of a term list at the current position. *)
Fixpoint matchHere (re : list term) (atStart : bool) (s : list ascii) {struct re} : bool :=
  match re with
  | [] => true
  | Bol :: re' => atStart && matchHere re' atStart s
  | Eol :: re' =>
      match s with
      | [] => matchHere re' atStart s
      | _ :: _ => false
      end
  | One a :: re' =>
      match s with
      | c :: s' => accepts a c && matchHere re' false s'
      | [] => false
      end
  | Star a :: re' =>
      (fix star (atStart : bool) (s : list ascii) {struct s} : bool :=
         matchHere re' atStart s
         || match s with
            | c :: s' => accepts a c && star false s'
            | [] => false
            end) atStart s
  end.

(** [test] searches for a match starting at any position. *)
Fixpoint search (re : list term) (atStart : bool) (s : list ascii) {struct s} : bool :=
  matchHere re atStart s
  || match s with
     | _ :: s' => search re false s'
     | [] => false
     end.

Definition construct (pattern : string) : Js.completion (list term) :=
  match parse pattern with
  | Some re => Js.Return re
  | None => Js.Throw (Js.SyntaxError ("Invalid regular expression: /" +:+ pattern +:+ "/"))
  end.

Definition engine : RegExpHost.
Proof.
  refine {| regex := list term;
            RegExp := construct;
            regex_test := fun re s => search re true (chars s) |}.
  - intros pattern e. unfold construct. destruct (parse pattern); [discriminate|].
    intros [= <-]. eauto.
  - exists []. reflexivity.
Defined.

End Fragment.

(** A sample instance of the tables of ./tools and ./experiments, which are
    not under src/, for evaluating the resolver on concrete calls.  The tool
    names are those the spec's scenarios and the built-in prompt texts name,
    grouped as the prompt texts group them, with one tool for each remaining
    group and the always-available tools of the spec.  Neither the spec nor
    the source says which identifiers are experiments: the sample gates two
    edit tools so that the experiments gate can be exercised.  The general
    theorems hold for every table. *)
Definition sampleImports : Imports := {|
  TOOL_GROUPS := fun g =>
    match g with
    | read => {| tools := ["read_file"; "fetch_instructions"; "search_files"; "list_files";
                           "list_code_definition_names"] |}
    | edit => {| tools := ["apply_diff"; "write_to_file"; "insert_content";
                           "search_and_replace"] |}
    | browser => {| tools := ["browser_action"] |}
    | command => {| tools := ["execute_command"] |}
    | mcp => {| tools := ["use_mcp_tool"; "access_mcp_resource"] |}
    | review => {| tools := ["reviewer"] |}
    end;
  ALWAYS_AVAILABLE_TOOLS :=
    ["ask_followup_question"; "attempt_completion"; "switch_mode"; "new_task"];
  EXPERIMENT_IDS :=
    [("SEARCH_AND_REPLACE", "search_and_replace"); ("INSERT_BLOCK", "insert_content")];
  builtinRole := fun _ => "";
  builtinInstructions := fun _ => ""
|}.

(** [isToolAllowedForMode] on the fragment engine and the sample tables. *)
Definition isToolAllowed_sample :=
  @isToolAllowedForMode Fragment.engine sampleImports.

Definition params (fields : list (string * Js.value)) : option (gmap string Js.value) :=
  Some (list_to_map fields).

(** A custom mode whose restricted edit entry precedes an unrestricted one. *)
Definition docsMode : ModeConfig := {|
  slug := "docs";
  name := "Docs";
  roleDefinition := "";
  customInstructions := None;
  groups := [Scoped edit {| fileRegex := Some "\.md$"; description := None |}; Bare edit]
|}.

(** A custom mode that overrides the built-in "code". *)
Definition customCode : ModeConfig := {|
  slug := "code";
  name := "My Code";
  roleDefinition := "";
  customInstructions := None;
  groups := [Bare read]
|}.

(** A custom mode whose edit pattern is malformed (nothing to repeat). *)
Definition brokenMode : ModeConfig := {|
  slug := "broken";
  name := "Broken";
  roleDefinition := "";
  customInstructions := None;
  groups := [Bare read; Scoped edit {| fileRegex := Some "*"; description := None |}]
|}.

(** ** Tool lists and prompt overrides *)

(** A prompt component overrides the free text of a mode; both fields are
    optional. *)
Module PromptComponent.
Record t : Type := {
  roleDefinition : option string;
  customInstructions : option string
}.
End PromptComponent.

(** The two keys [getAllModesWithPrompts] reads from
    [context.globalState]. *)
Record ExtensionContext : Type := {
  globalState_customModes : option (list ModeConfig);
  globalState_customModePrompts : option (gmap string PromptComponent.t)
}.

(** The [options] argument of [getFullModeDetails]. *)
Record DetailsOptions : Type := {
  cwd : option string;
  globalCustomInstructions : option string;
  language : option string
}.

(** [addCustomInstructions], imported from
    ../core/prompts/sections/custom-instructions, which is not under src/:
    the completion of the awaited call, as a function of its arguments
    (base instructions, global instructions, working directory, mode slug,
    language). *)
Class PromptSections : Type := {
  addCustomInstructions :
    string -> string -> string -> string -> option string -> Js.completion string
}.

(** [a ?? b] on an optional value. *)
Definition nullish {A : Type} (a : option A) (b : A) : A :=
  match a with
  | Some x => x
  | None => b
  end.

(** [a || b] on an optional string and a string. *)
Definition or_string (a : option string) (b : string) : string :=
  if truthy_string a then default "" a else b.

(** [Set.prototype.add] on a set of strings kept in insertion order. *)
Definition Set_add (set : list string) (x : string) : list string :=
  if Js.includes set x then set else set ++ [x].

(** [Object.fromEntries]: a later entry of a key replaces an earlier one. *)
Definition Object_fromEntries {V : Type} (entries : list (string * V)) : gmap string V :=
  fold_left (fun o entry => <[entry.1 := entry.2]> o) entries ∅.

Section Prompts.

Context `{imports : Imports} `{sections : PromptSections}.

(** Helper to get all tools for a mode. *)
Definition getToolsForMode (groups : list GroupEntry) : list string :=
  let toolSet : list string := [] in
  (* Add tools from each group *)
  let toolSet :=
    fold_left (fun toolSet group =>
                 let groupName := getGroupName group in
                 let groupConfig := TOOL_GROUPS groupName in
                 fold_left Set_add (tools groupConfig) toolSet)
              groups toolSet in
  (* Always add required tools *)
  let toolSet := fold_left Set_add ALWAYS_AVAILABLE_TOOLS toolSet in
  toolSet.

(** [modes[0]]; the array literal is not empty. *)
Definition modes_0 : ModeConfig :=
  match modes with
  | first :: _ => first
  | [] => codeMode
  end.

(** Export the default mode slug. *)
Definition defaultModeSlug : string := slug modes_0.

(** Create the mode-specific default prompts. *)
Definition defaultPrompts : gmap string PromptComponent.t :=
  Object_fromEntries
    (map (fun mode =>
            (slug mode,
             {| PromptComponent.roleDefinition := Some (roleDefinition mode);
                PromptComponent.customInstructions := customInstructions mode |}))
         modes).

(** Helper function to get all modes with their prompt overrides from
    extension state. *)
Definition getAllModesWithPrompts (context : ExtensionContext) : list ModeConfig :=
  let customModes := default [] (globalState_customModes context) in
  let customModePrompts := default ∅ (globalState_customModePrompts context) in
  let allModes := getAllModes (Some customModes) in
  map (fun mode =>
         {| slug := slug mode;
            name := name mode;
            groups := groups mode;
            roleDefinition :=
              nullish (customModePrompts !! slug mode ≫= PromptComponent.roleDefinition)
                      (roleDefinition mode);
            customInstructions :=
              match customModePrompts !! slug mode ≫= PromptComponent.customInstructions with
              | Some text => Some text
              | None => customInstructions mode
              end |})
      allModes.

(** Helper function to get complete mode details with all overrides. *)
Definition getFullModeDetails (modeSlug : string)
    (customModes : option (list ModeConfig))
    (customModePrompts : option (gmap string PromptComponent.t))
    (options : option DetailsOptions) : Js.completion ModeConfig :=
  (* First get the base mode config from custom modes or built-in modes *)
  let baseMode :=
    match getModeBySlug modeSlug customModes with
    | Some mode => mode
    | None =>
        match findBySlug modeSlug modes with
        | Some mode => mode
        | None => modes_0
        end
    end in
  (* Check for any prompt component overrides *)
  let promptComponent := customModePrompts ≫= (.!! modeSlug) in
  (* Get the base custom instructions *)
  let baseCustomInstructions :=
    or_string (promptComponent ≫= PromptComponent.customInstructions)
              (or_string (customInstructions baseMode) "") in
  (* If we have cwd, load and combine all custom instructions *)
  fullCustomInstructions ←
    (if truthy_string (options ≫= cwd) then
       addCustomInstructions baseCustomInstructions
         (or_string (options ≫= globalCustomInstructions) "")
         (default "" (options ≫= cwd))
         modeSlug
         (options ≫= language)
     else Js.Return baseCustomInstructions);
  (* Return mode with any overrides applied *)
  Js.Return
    {| slug := slug baseMode;
       name := name baseMode;
       groups := groups baseMode;
       roleDefinition :=
         or_string (promptComponent ≫= PromptComponent.roleDefinition)
                   (roleDefinition baseMode);
       customInstructions := Some fullCustomInstructions |}.



End Prompts.

(** A sample [addCustomInstructions]: it appends the global instructions. *)
Definition sampleSections : PromptSections := {|
  addCustomInstructions := fun base global _ _ _ => Js.Return (base +:+ global)
|}.

(** A second custom mode with the slug "code". *)
Definition otherCode : ModeConfig := {|
  slug := "code";
  name := "Other Code";
  roleDefinition := "other";
  customInstructions := Some "";
  groups := [Bare read; Bare command]
|}.

(** ** Basic facts *)

Section Facts.

Context `{host : RegExpHost} `{imports : Imports}.

Lemma includes_true l x : Js.includes l x = true <-> x ∈ l.
Proof.
  unfold Js.includes. rewrite existsb_exists. split.
  - intros (y & Hy & Heq). apply String.eqb_eq in Heq. subst y.
    by apply list_elem_of_In.
  - intros Hx. exists x. split; [by apply list_elem_of_In | apply String.eqb_refl].
Qed.

Lemma includes_false l x : Js.includes l x = false <-> x ∉ l.
Proof.
  rewrite <- includes_true. destruct (Js.includes l x); split; congruence.
Qed.

Lemma findBySlug_Some s l m :
  findBySlug s l = Some m -> slug m = s /\ m ∈ l.
Proof.
  unfold findBySlug. intros Hf. apply find_some in Hf as [Hin Heq].
  apply String.eqb_eq in Heq. split; [done | by apply list_elem_of_In].
Qed.

Lemma findBySlug_None s l :
  findBySlug s l = None <-> s ∉ map slug l.
Proof.
  unfold findBySlug. induction l as [|m l IH]; simpl.
  - split; [intros _ | done]. apply not_elem_of_nil.
  - destruct (String.eqb_spec (slug m) s) as [Heq|Hne].
    + split; [done|]. intros Hn. exfalso. apply Hn. rewrite Heq. apply list_elem_of_here.
    + rewrite IH, not_elem_of_cons. split; [by intros ?; split | by intros [_ ?]].
Qed.

Lemma findBySlug_is_Some s l :
  s ∈ map slug l -> exists m, findBySlug s l = Some m.
Proof.
  intros Hin. destruct (findBySlug s l) as [m|] eqn:Hf; [eauto|].
  by apply findBySlug_None in Hf.
Qed.

(** The pattern match never throws: a constructor failure is caught. *)
Lemma doesFileMatchRegex_returns filePath pattern :
  exists b, doesFileMatchRegex filePath pattern = Js.Return b.
Proof.
  unfold doesFileMatchRegex. destruct (RegExp pattern) as [r|e]; simpl; eauto.
Qed.

Lemma doesFileMatchRegex_malformed filePath pattern e :
  RegExp pattern = Js.Throw e -> doesFileMatchRegex filePath pattern = Js.Return false.
Proof. unfold doesFileMatchRegex. by intros ->. Qed.

(** Entries whose tool set lacks the tool are skipped. *)
Lemma forGroups_skip mode tool toolParams before rest :
  (forall b, b ∈ before -> tool ∉ tools (TOOL_GROUPS (getGroupName b))) ->
  forGroups mode tool toolParams (before ++ rest) = forGroups mode tool toolParams rest.
Proof.
  induction before as [|b before IH]; intros Hskip; [done|].
  simpl. assert (Hb : Js.includes (tools (TOOL_GROUPS (getGroupName b))) tool = false).
  { apply includes_false, Hskip, list_elem_of_here. }
  rewrite Hb. simpl. apply IH. intros b' Hb'. apply Hskip. by apply list_elem_of_further.
Qed.

(** The first entry whose tool set has the tool decides. *)
Lemma forGroups_hit mode tool toolParams g after :
  tool ∈ tools (TOOL_GROUPS (getGroupName g)) ->
  forGroups mode tool toolParams (g :: after) = groupDecision mode toolParams g.
Proof. intros Hin. simpl. apply includes_true in Hin. by rewrite Hin. Qed.

(** The loop finds the first entry whose tool set has the tool. *)
Lemma forGroups_find mode tool toolParams gs :
  forGroups mode tool toolParams gs
  = match List.find (fun g => Js.includes (tools (TOOL_GROUPS (getGroupName g))) tool) gs with
    | Some g => groupDecision mode toolParams g
    | None => Js.Return false
    end.
Proof.
  induction gs as [|g gs IH]; simpl; [done|].
  by destruct (Js.includes (tools (TOOL_GROUPS (getGroupName g))) tool).
Qed.

Lemma forGroups_none mode tool toolParams gs :
  (forall g, g ∈ gs -> tool ∉ tools (TOOL_GROUPS (getGroupName g))) ->
  forGroups mode tool toolParams gs = Js.Return false.
Proof.
  intros Hskip. rewrite <- (app_nil_r gs). by rewrite forGroups_skip.
Qed.

(** Once no earlier stage decides, the loop over the groups does. *)
Lemma isToolAllowedForMode_groups tool modeSlug customModes toolRequirements
    toolParams experiments mode :
  tool ∉ ALWAYS_AVAILABLE_TOOLS ->
  experimentsDeny tool experiments = false ->
  requirementsDeny tool toolRequirements = false ->
  getModeBySlug modeSlug (Some customModes) = Some mode ->
  isToolAllowedForMode tool modeSlug customModes toolRequirements toolParams experiments
  = forGroups mode tool toolParams (groups mode).
Proof.
  intros Hna He Hr Hm. unfold isToolAllowedForMode.
  apply includes_false in Hna. by rewrite Hna, He, Hr, Hm.
Qed.

End Facts.

(** ** The Markdown pattern on the fragment engine *)

Lemma matchHere_md atStart (s : string) :
  Fragment.matchHere
    [Fragment.One (Fragment.Lit "."); Fragment.One (Fragment.Lit "m");
     Fragment.One (Fragment.Lit "d"); Fragment.Eol] atStart (Fragment.chars s) = true
  <-> s = ".md".
Proof.
  destruct s as [|c1 [|c2 [|c3 [|c4 s]]]];
    cbn [Fragment.matchHere Fragment.chars list_ascii_of_string Fragment.accepts];
    try (split; [done|discriminate]);
    destruct (Ascii.eqb_spec "." c1); try (split; [done|congruence]);
    try destruct (Ascii.eqb_spec "m" c2); try (split; [done|congruence]);
    try destruct (Ascii.eqb_spec "d" c3); try (split; [done|congruence]).
  split; [intros _; congruence | done].
Qed.

Lemma search_md atStart (s : string) :
  Fragment.search
    [Fragment.One (Fragment.Lit "."); Fragment.One (Fragment.Lit "m");
     Fragment.One (Fragment.Lit "d"); Fragment.Eol] atStart (Fragment.chars s) = true
  <-> exists prefix, s = prefix +:+ ".md".
Proof.
  revert atStart. induction s as [|c rest IH]; intros atStart.
  - split; [discriminate|]. intros [[|c p] Hp]; discriminate.
  - change (Fragment.chars (String c rest)) with (c :: Fragment.chars rest).
    cbn [Fragment.search].
    change (c :: Fragment.chars rest) with (Fragment.chars (String c rest)).
    rewrite orb_true_iff, matchHere_md, IH. split.
    + intros [->|[p ->]]; [by exists "" | by exists (String c p)].
    + intros [[|c' p] Hp]; [by left|]. right. injection Hp as _ ->. by exists p.
Qed.

(** [\.md$] accepts exactly the paths that end in ".md". *)
Lemma markdown_pattern_suffix (filePath : string) :
  @doesFileMatchRegex Fragment.engine filePath "\.md$" = Js.Return true
  <-> exists prefix, filePath = prefix +:+ ".md".
Proof.
  rewrite <- (search_md true). split; [by intros [= ->] | intros Hs].
  change (@doesFileMatchRegex Fragment.engine filePath "\.md$") with
    (Js.Return (Fragment.search
       [Fragment.One (Fragment.Lit "."); Fragment.One (Fragment.Lit "m");
        Fragment.One (Fragment.Lit "d"); Fragment.Eol] true (Fragment.chars filePath))).
  by rewrite Hs.
Qed.

(** ** The permission resolver *)

Section Resolver.

Context `{host : RegExpHost} `{imports : Imports}.

(** C4: a tool of the always-available set is allowed for every mode slug
    (resolving or not), every sequence of custom modes, every
    [toolRequirements] (the literal [false] included), every [toolParams] and
    every [experiments] record. *)
Theorem always_available_allowed tool modeSlug customModes toolRequirements
    toolParams experiments :
  tool ∈ ALWAYS_AVAILABLE_TOOLS ->
  isToolAllowedForMode tool modeSlug customModes toolRequirements toolParams experiments
  = Js.Return true.
Proof.
  intros Hin. unfold isToolAllowedForMode.
  apply includes_true in Hin. by rewrite Hin.
Qed.

(** C5: for a tool outside the always-available set, [toolRequirements]
    being the literal [false] denies it in every mode; a record denies it at
    that stage exactly when it holds an explicit [false] entry for the tool,
    and otherwise resolution goes on as if no requirements were given. *)
Theorem toolRequirements_gate tool modeSlug customModes toolParams experiments :
  tool ∉ ALWAYS_AVAILABLE_TOOLS ->
  isToolAllowedForMode tool modeSlug customModes (ReqBoolean false) toolParams experiments
  = Js.Return false
  /\ forall entries : gmap string bool,
      (requirementsDeny tool (ReqRecord entries) = true <-> entries !! tool = Some false)
      /\ isToolAllowedForMode tool modeSlug customModes (ReqRecord entries) toolParams
           experiments
         = match entries !! tool with
           | Some false => Js.Return false
           | _ => isToolAllowedForMode tool modeSlug customModes ReqUndefined toolParams
                    experiments
           end.
Proof.
  intros Hna. apply includes_false in Hna. unfold isToolAllowedForMode. rewrite Hna.
  split.
  - simpl. by destruct (experimentsDeny tool experiments).
  - intros entries. split.
    + simpl. destruct (entries !! tool) as [[]|]; simpl; split; congruence.
    + simpl. destruct (experimentsDeny tool experiments); simpl;
        by destruct (entries !! tool) as [[]|].
Qed.

(** X18: for a recognised experiment identifier outside the
    always-available set, a supplied [experiments] record with a falsy entry
    for the tool (missing or [false]) denies it whatever the mode's groups
    are; with a truthy entry the call is resolved as it is with no
    [experiments] argument, for which the gate is not entered. *)
Theorem experiments_gate tool modeSlug customModes toolRequirements toolParams
    (flags : gmap string bool) :
  tool ∈ Object_values EXPERIMENT_IDS ->
  tool ∉ ALWAYS_AVAILABLE_TOOLS ->
  isToolAllowedForMode tool modeSlug customModes toolRequirements toolParams (Some flags)
  = if default false (flags !! tool)
    then isToolAllowedForMode tool modeSlug customModes toolRequirements toolParams None
    else Js.Return false.
Proof.
  intros Hexp Hna. apply includes_true in Hexp. apply includes_false in Hna.
  unfold isToolAllowedForMode, experimentsDeny. rewrite Hna, Hexp. simpl.
  by destruct (default false (flags !! tool)).
Qed.

(** The decision of one entry is to allow, unless it is a scoped edit entry
    and the call is a genuine edit of a path its pattern does not match. *)
Lemma groupDecision_cases mode toolParams g :
  groupDecision mode toolParams g = Js.Return true
  \/ exists options pattern,
      g = Scoped edit options
      /\ fileRegex options = Some pattern
      /\ Js.truthy (Js.get toolParams "path") = true
      /\ (Js.truthy (Js.get toolParams "diff")
          || Js.truthy (Js.get toolParams "content")
          || Js.truthy (Js.get toolParams "operations")) = true
      /\ doesFileMatchRegex (Js.to_string (Js.get toolParams "path")) pattern
         = Js.Return false
      /\ groupDecision mode toolParams g
         = Js.Throw (FileRestrictionError (name mode) pattern (description options)
                       (Js.to_string (Js.get toolParams "path"))).
Proof.
  destruct g as [g|g options]; [by left|].
  unfold groupDecision. simpl.
  destruct (bool_decide (g = edit)) eqn:Hg; [|by left].
  apply bool_decide_eq_true in Hg. subst g. simpl.
  destruct (fileRegex options) as [pattern|] eqn:Hre; [|by left]. simpl.
  destruct (negb (String.eqb pattern "")); [|by left].
  destruct (Js.truthy (Js.get toolParams "path")) eqn:Hpath; [|by left]. simpl.
  destruct (_ || _ || _) eqn:Hedit; [|by left].
  destruct (doesFileMatchRegex_returns
              (Js.to_string (Js.get toolParams "path")) pattern) as [b Hb].
  rewrite Hb. destruct b; [by left|]. right. exists options, pattern.
  by rewrite Hre.
Qed.

(** The decision of an entry, written out: a bare entry allows; a scoped
    edit entry with a pattern, on a call with a path and a diff, content or
    operations, allows when the path matches and raises the path restriction
    when it does not; every other scoped entry allows. *)
Lemma groupDecision_explicit mode toolParams g :
  groupDecision mode toolParams g
  = match g with
    | Bare _ => Js.Return true
    | Scoped group options =>
        if bool_decide (group = edit)
           && truthy_string (fileRegex options)
           && Js.truthy (Js.get toolParams "path")
           && (Js.truthy (Js.get toolParams "diff")
               || Js.truthy (Js.get toolParams "content")
               || Js.truthy (Js.get toolParams "operations"))
        then
          match doesFileMatchRegex (Js.to_string (Js.get toolParams "path"))
                  (default "" (fileRegex options)) with
          | Js.Return true => Js.Return true
          | Js.Return false =>
              Js.Throw (FileRestrictionError (name mode) (default "" (fileRegex options))
                          (description options)
                          (Js.to_string (Js.get toolParams "path")))
          | Js.Throw e => Js.Throw e
          end
        else Js.Return true
    end.
Proof.
  destruct g as [group|group options]; [done|].
  unfold groupDecision. simpl.
  destruct (bool_decide (group = edit)); [|done]. simpl.
  destruct (truthy_string (fileRegex options)); [|done]. simpl.
  destruct (Js.truthy (Js.get toolParams "path")); [|done]. simpl.
  destruct (_ || _ || _); [|done].
  destruct (doesFileMatchRegex_returns
              (Js.to_string (Js.get toolParams "path"))
              (default "" (fileRegex options))) as [[] ->]; done.
Qed.

(** C2: [isToolAllowedForMode] is decided by the first entry, in the mode's
    declared order, whose tool set has the tool, once the always-available
    test, the two gates and the mode lookup have let the call through.  The
    decision depends on that entry alone, not on the entries after it: a
    bare entry allows; a scoped edit entry with a pattern, on a genuine edit
    (a path with a diff, content or operations), allows a matching path and
    raises the path restriction for a non-matching one, even when a later
    entry grants the tool without options; any other scoped entry allows.
    When no entry's tool set has the tool the result is [false]. *)
Theorem first_group_entry_decides tool modeSlug customModes toolRequirements
    toolParams experiments :
  let decision (mode : ModeConfig) (g : GroupEntry) : Js.completion bool :=
    match g with
    | Bare _ => Js.Return true
    | Scoped group options =>
        if bool_decide (group = edit)
           && truthy_string (fileRegex options)
           && Js.truthy (Js.get toolParams "path")
           && (Js.truthy (Js.get toolParams "diff")
               || Js.truthy (Js.get toolParams "content")
               || Js.truthy (Js.get toolParams "operations"))
        then
          match doesFileMatchRegex (Js.to_string (Js.get toolParams "path"))
                  (default "" (fileRegex options)) with
          | Js.Return true => Js.Return true
          | Js.Return false =>
              Js.Throw (FileRestrictionError (name mode) (default "" (fileRegex options))
                          (description options)
                          (Js.to_string (Js.get toolParams "path")))
          | Js.Throw e => Js.Throw e
          end
        else Js.Return true
    end in
  isToolAllowedForMode tool modeSlug customModes toolRequirements toolParams experiments
  = (if Js.includes ALWAYS_AVAILABLE_TOOLS tool then Js.Return true
     else if experimentsDeny tool experiments then Js.Return false
     else if requirementsDeny tool toolRequirements then Js.Return false
     else match getModeBySlug modeSlug (Some customModes) with
          | None => Js.Return false
          | Some mode =>
              match List.find
                      (fun g => Js.includes (tools (TOOL_GROUPS (getGroupName g))) tool)
                      (groups mode) with
              | Some g => decision mode g
              | None => Js.Return false
              end
          end)
  /\ forall mode,
      tool ∉ ALWAYS_AVAILABLE_TOOLS ->
      experimentsDeny tool experiments = false ->
      requirementsDeny tool toolRequirements = false ->
      getModeBySlug modeSlug (Some customModes) = Some mode ->
      (forall before g after,
          groups mode = before ++ g :: after ->
          (forall b, b ∈ before -> tool ∉ tools (TOOL_GROUPS (getGroupName b))) ->
          tool ∈ tools (TOOL_GROUPS (getGroupName g)) ->
          isToolAllowedForMode tool modeSlug customModes toolRequirements toolParams
            experiments
          = decision mode g)
      /\ (forall before options pattern after,
            groups mode = before ++ Scoped edit options :: after ->
            (forall b, b ∈ before -> tool ∉ tools (TOOL_GROUPS (getGroupName b))) ->
            tool ∈ tools (TOOL_GROUPS edit) ->
            fileRegex options = Some pattern ->
            pattern <> "" ->
            Js.truthy (Js.get toolParams "path") = true ->
            (Js.truthy (Js.get toolParams "diff")
             || Js.truthy (Js.get toolParams "content")
             || Js.truthy (Js.get toolParams "operations")) = true ->
            doesFileMatchRegex (Js.to_string (Js.get toolParams "path")) pattern
            = Js.Return false ->
            isToolAllowedForMode tool modeSlug customModes toolRequirements toolParams
              experiments
            = Js.Throw (FileRestrictionError (name mode) pattern (description options)
                          (Js.to_string (Js.get toolParams "path"))))
      /\ ((forall g, g ∈ groups mode -> tool ∉ tools (TOOL_GROUPS (getGroupName g))) ->
          isToolAllowedForMode tool modeSlug customModes toolRequirements toolParams
            experiments
          = Js.Return false).
Proof.
  intros decision.
  assert (Hdecision : forall mode g, groupDecision mode toolParams g = decision mode g)
    by (intros mode g; apply groupDecision_explicit).
  split.
  - unfold isToolAllowedForMode.
    destruct (getModeBySlug modeSlug (Some customModes)) as [mode|]; [|done].
    rewrite forGroups_find. by destruct (find _ (groups mode)); [rewrite Hdecision|].
  - intros mode Hna He Hr Hm.
    rewrite (isToolAllowedForMode_groups _ _ _ _ _ _ mode Hna He Hr Hm).
    assert (Hfirst : forall before g after,
      groups mode = before ++ g :: after ->
      (forall b, b ∈ before -> tool ∉ tools (TOOL_GROUPS (getGroupName b))) ->
      tool ∈ tools (TOOL_GROUPS (getGroupName g)) ->
      forGroups mode tool toolParams (groups mode) = decision mode g).
    { intros before g after Hgs Hskip Hin.
      rewrite Hgs, forGroups_skip, forGroups_hit by done. apply Hdecision. }
    split; [exact Hfirst|]. split; [|apply forGroups_none].
    intros before options pattern after Hgs Hskip Hin Hre Hne Hpath Hedit Hmatch.
    rewrite (Hfirst before (Scoped edit options) after Hgs Hskip Hin).
    unfold decision. rewrite Hre. simpl.
    apply String.eqb_neq in Hne. by rewrite Hne, Hpath, Hedit, Hmatch.
Qed.

(** C9: a malformed [fileRegex] does not make resolution fail with the
    constructor's error: the failure is caught, no path matches the pattern,
    and a genuine edit attempt (a path together with a diff, content or
    operations) is denied with the path-restriction error. *)
Theorem malformed_fileRegex_denies tool modeSlug customModes toolRequirements
    toolParams experiments mode before options pattern after e :
  RegExp pattern = Js.Throw e ->
  tool ∉ ALWAYS_AVAILABLE_TOOLS ->
  experimentsDeny tool experiments = false ->
  requirementsDeny tool toolRequirements = false ->
  getModeBySlug modeSlug (Some customModes) = Some mode ->
  groups mode = before ++ Scoped edit options :: after ->
  fileRegex options = Some pattern ->
  (forall b, b ∈ before -> tool ∉ tools (TOOL_GROUPS (getGroupName b))) ->
  tool ∈ tools (TOOL_GROUPS edit) ->
  Js.truthy (Js.get toolParams "path") = true ->
  (Js.truthy (Js.get toolParams "diff")
   || Js.truthy (Js.get toolParams "content")
   || Js.truthy (Js.get toolParams "operations")) = true ->
  (forall filePath, doesFileMatchRegex filePath pattern = Js.Return false)
  /\ isToolAllowedForMode tool modeSlug customModes toolRequirements toolParams experiments
     = Js.Throw (FileRestrictionError (name mode) pattern (description options)
                   (Js.to_string (Js.get toolParams "path"))).
Proof.
  intros Hbad Hna He Hr Hm Hgs Hre Hskip Hin Hpath Hedit.
  split; [intros filePath; by eapply doesFileMatchRegex_malformed|].
  rewrite (isToolAllowedForMode_groups _ _ _ _ _ _ mode Hna He Hr Hm).
  rewrite Hgs, forGroups_skip, forGroups_hit by done.
  unfold groupDecision. simpl. rewrite Hre. simpl.
  assert (Hne : String.eqb pattern "" = false).
  { apply String.eqb_neq. intros ->. destruct RegExp_empty as [r Hr'].
    rewrite Hr' in Hbad. discriminate. }
  rewrite Hne, Hpath, Hedit. simpl.
  by rewrite (doesFileMatchRegex_malformed _ _ _ Hbad).
Qed.

(** C10: when the entry that decides is the edit group with a [fileRegex],
    a call whose diff, content and operations are all falsy (absent, or the
    empty string) is allowed without raising, whatever its path: an edit
    with empty content passes the path restriction. *)
Theorem falsy_payload_bypasses_restriction tool modeSlug customModes toolRequirements
    toolParams experiments mode before options after :
  tool ∉ ALWAYS_AVAILABLE_TOOLS ->
  experimentsDeny tool experiments = false ->
  requirementsDeny tool toolRequirements = false ->
  getModeBySlug modeSlug (Some customModes) = Some mode ->
  groups mode = before ++ Scoped edit options :: after ->
  truthy_string (fileRegex options) = true ->
  (forall b, b ∈ before -> tool ∉ tools (TOOL_GROUPS (getGroupName b))) ->
  tool ∈ tools (TOOL_GROUPS edit) ->
  Js.truthy (Js.get toolParams "diff") = false ->
  Js.truthy (Js.get toolParams "content") = false ->
  Js.truthy (Js.get toolParams "operations") = false ->
  isToolAllowedForMode tool modeSlug customModes toolRequirements toolParams experiments
  = Js.Return true.
Proof.
  intros Hna He Hr Hm Hgs Hre Hskip Hin Hdiff Hcontent Hops.
  rewrite (isToolAllowedForMode_groups _ _ _ _ _ _ mode Hna He Hr Hm).
  rewrite Hgs, forGroups_skip, forGroups_hit by done.
  unfold groupDecision. simpl. rewrite Hre, Hdiff, Hcontent, Hops. simpl.
  by rewrite andb_false_r.
Qed.

(** C1: in mode "architect", whose edit group is scoped by [\.md$], writing
    content to notes.md is allowed, writing content to app.ts raises the
    [FileRestrictionError], and a call naming app.ts without diff, content
    or operations is allowed. *)
Theorem architect_edit_restriction :
  "write_to_file" ∉ ALWAYS_AVAILABLE_TOOLS ->
  "write_to_file" ∉ tools (TOOL_GROUPS read) ->
  "write_to_file" ∈ tools (TOOL_GROUPS edit) ->
  doesFileMatchRegex "notes.md" "\.md$" = Js.Return true ->
  doesFileMatchRegex "app.ts" "\.md$" = Js.Return false ->
  isToolAllowedForMode "write_to_file" "architect" [] ReqUndefined
    (params [("path", Js.Str "notes.md"); ("content", Js.Str "x")]) None
  = Js.Return true
  /\ isToolAllowedForMode "write_to_file" "architect" [] ReqUndefined
       (params [("path", Js.Str "app.ts"); ("content", Js.Str "x")]) None
     = Js.Throw (Js.FileRestrictionError
         "This mode (🏗️ Architect) can only edit files matching pattern: \.md$ (Markdown files only). Got: app.ts")
  /\ isToolAllowedForMode "write_to_file" "architect" [] ReqUndefined
       (params [("path", Js.Str "app.ts")]) None
     = Js.Return true.
Proof.
  intros Hna Hread Hedit Hmd Hts.
  assert (Hm : getModeBySlug "architect" (Some []) = Some architectMode) by reflexivity.
  assert (Hgo : forall toolParams,
    isToolAllowedForMode "write_to_file" "architect" [] ReqUndefined toolParams None
    = let filePath := Js.get toolParams "path" in
      if Js.truthy filePath
         && (Js.truthy (Js.get toolParams "diff")
             || Js.truthy (Js.get toolParams "content")
             || Js.truthy (Js.get toolParams "operations"))
      then
        matched ← doesFileMatchRegex (Js.to_string filePath) "\.md$";
        if negb matched
        then Js.Throw (FileRestrictionError "🏗️ Architect" "\.md$"
                         (Some "Markdown files only") (Js.to_string filePath))
        else Js.Return true
      else Js.Return true).
  { intros toolParams.
    rewrite (isToolAllowedForMode_groups _ _ _ ReqUndefined _ None _ Hna eq_refl eq_refl Hm).
    change (groups architectMode) with
      ([Bare read]
       ++ Scoped edit {| fileRegex := Some "\.md$";
                         description := Some "Markdown files only" |}
       :: [Bare browser; Bare command; Bare mcp; Bare review]).
    rewrite forGroups_skip, forGroups_hit; [reflexivity | exact Hedit |].
    intros b Hb. apply list_elem_of_singleton in Hb. by subst b. }
  rewrite !Hgo.
  assert (Hget1 : forall f, Js.get (params [("path", Js.Str f); ("content", Js.Str "x")]) "path"
                            = Js.Str f) by (intros f; by vm_compute).
  assert (Hget2 : forall f, Js.get (params [("path", Js.Str f); ("content", Js.Str "x")]) "content"
                            = Js.Str "x") by (intros f; by vm_compute).
  assert (Hget3 : Js.get (params [("path", Js.Str "app.ts")]) "diff" = Js.Undefined)
    by (by vm_compute).
  assert (Hget4 : Js.get (params [("path", Js.Str "app.ts")]) "content" = Js.Undefined)
    by (by vm_compute).
  assert (Hget5 : Js.get (params [("path", Js.Str "app.ts")]) "operations" = Js.Undefined)
    by (by vm_compute).
  cbv zeta. rewrite !Hget1, !Hget2, Hget3, Hget4, Hget5.
  split; [|split].
  - cbn [Js.truthy Js.to_string]. rewrite orb_true_r. simpl. by rewrite Hmd.
  - cbn [Js.truthy Js.to_string]. rewrite orb_true_r. simpl. by rewrite Hts.
  - cbn [Js.truthy]. by rewrite andb_false_r.
Qed.

End Resolver.

(** ** The resolver on concrete calls *)

Lemma architect_edit_restriction_witness :
  isToolAllowed_sample "write_to_file" "architect" [] ReqUndefined
    (params [("path", Js.Str "notes.md"); ("content", Js.Str "x")]) None
  = Js.Return true
  /\ isToolAllowed_sample "write_to_file" "architect" [] ReqUndefined
       (params [("path", Js.Str "app.ts"); ("content", Js.Str "x")]) None
     = Js.Throw (Js.FileRestrictionError
         "This mode (🏗️ Architect) can only edit files matching pattern: \.md$ (Markdown files only). Got: app.ts")
  /\ isToolAllowed_sample "write_to_file" "architect" [] ReqUndefined
       (params [("path", Js.Str "app.ts")]) None
     = Js.Return true.
Proof.
  apply (@architect_edit_restriction Fragment.engine sampleImports).
  - apply includes_false. reflexivity.
  - apply includes_false. reflexivity.
  - apply includes_true. reflexivity.
  - reflexivity.
  - reflexivity.
Defined.

Lemma first_group_entry_decides_witness :
  isToolAllowed_sample "write_to_file" "docs" [docsMode] ReqUndefined
    (params [("path", Js.Str "app.ts"); ("content", Js.Str "x")]) None
  = Js.Throw (Js.FileRestrictionError
      "This mode (Docs) can only edit files matching pattern: \.md$. Got: app.ts")
  /\ isToolAllowed_sample "browser_action" "docs" [docsMode] ReqUndefined None None
     = Js.Return false.
Proof.
  split.
  - destruct (proj2 (@first_group_entry_decides Fragment.engine sampleImports
                "write_to_file" "docs" [docsMode] ReqUndefined
                (params [("path", Js.Str "app.ts"); ("content", Js.Str "x")]) None) docsMode)
      as (_ & Hscoped & _).
    + apply includes_false. reflexivity.
    + reflexivity.
    + reflexivity.
    + reflexivity.
    + apply (Hscoped [] {| fileRegex := Some "\.md$"; description := None |} "\.md$"
               [Bare edit]).
      * reflexivity.
      * intros b Hb. by apply elem_of_nil in Hb.
      * apply includes_true. reflexivity.
      * reflexivity.
      * discriminate.
      * by vm_compute.
      * by vm_compute.
      * reflexivity.
  - destruct (proj2 (@first_group_entry_decides Fragment.engine sampleImports
                "browser_action" "docs" [docsMode] ReqUndefined None None) docsMode)
      as (_ & _ & Hnone).
    + apply includes_false. reflexivity.
    + reflexivity.
    + reflexivity.
    + reflexivity.
    + apply Hnone. intros g Hg. apply includes_false.
      apply list_elem_of_In in Hg. simpl in Hg.
      destruct Hg as [<-|[<-|[]]]; reflexivity.
Defined.

Lemma experiments_gate_witness :
  isToolAllowed_sample "search_and_replace" "code" [] ReqUndefined None (Some ∅)
  = Js.Return false
  /\ isToolAllowed_sample "search_and_replace" "code" [] ReqUndefined None
       (Some {[ "search_and_replace" := true ]})
     = isToolAllowed_sample "search_and_replace" "code" [] ReqUndefined None None.
Proof.
  unfold isToolAllowed_sample. split.
  - rewrite (@experiments_gate Fragment.engine sampleImports).
    + reflexivity.
    + apply includes_true. reflexivity.
    + apply includes_false. reflexivity.
  - rewrite (@experiments_gate Fragment.engine sampleImports).
    + reflexivity.
    + apply includes_true. reflexivity.
    + apply includes_false. reflexivity.
Defined.

Lemma always_available_allowed_witness :
  ("attempt_completion" ∈ @ALWAYS_AVAILABLE_TOOLS sampleImports)
  /\ isToolAllowed_sample "attempt_completion" "no-such-mode" [] (ReqBoolean false)
       None (Some ∅)
     = Js.Return true.
Proof.
  assert (Hin : "attempt_completion" ∈ @ALWAYS_AVAILABLE_TOOLS sampleImports)
    by (apply includes_true; reflexivity).
  split; [exact Hin|].
  exact (@always_available_allowed Fragment.engine sampleImports
           "attempt_completion" "no-such-mode" [] (ReqBoolean false) None (Some ∅) Hin).
Defined.

Lemma toolRequirements_gate_witness :
  isToolAllowed_sample "write_to_file" "code" [] (ReqBoolean false) None None
  = Js.Return false
  /\ isToolAllowed_sample "write_to_file" "code" []
       (ReqRecord {[ "write_to_file" := false ]}) None None
     = Js.Return false
  /\ isToolAllowed_sample "write_to_file" "code" []
       (ReqRecord {[ "read_file" := false ]}) None None
     = isToolAllowed_sample "write_to_file" "code" [] ReqUndefined None None.
Proof.
  destruct (@toolRequirements_gate Fragment.engine sampleImports
              "write_to_file" "code" [] None None) as [Hfalse Hrecord].
  - apply includes_false. reflexivity.
  - split; [exact Hfalse|]. unfold isToolAllowed_sample. split.
    + rewrite (proj2 (Hrecord _)). reflexivity.
    + rewrite (proj2 (Hrecord _)). reflexivity.
Defined.

Lemma malformed_fileRegex_denies_witness :
  @RegExp Fragment.engine "*" = Js.Throw (Js.SyntaxError "Invalid regular expression: /*/")
  /\ isToolAllowed_sample "write_to_file" "broken" [brokenMode] ReqUndefined
       (params [("path", Js.Str "notes.md"); ("content", Js.Str "x")]) None
     = Js.Throw (Js.FileRestrictionError
         "This mode (Broken) can only edit files matching pattern: *. Got: notes.md").
Proof.
  split; [reflexivity|].
  refine (proj2 (@malformed_fileRegex_denies Fragment.engine sampleImports
            "write_to_file" "broken" [brokenMode] ReqUndefined
            (params [("path", Js.Str "notes.md"); ("content", Js.Str "x")]) None
            brokenMode [Bare read] {| fileRegex := Some "*"; description := None |} "*" []
            (Js.SyntaxError "Invalid regular expression: /*/")
            eq_refl _ eq_refl eq_refl eq_refl eq_refl eq_refl _ _ _ _)).
  - apply includes_false. reflexivity.
  - intros b Hb. apply list_elem_of_singleton in Hb. subst b.
    apply includes_false. reflexivity.
  - apply includes_true. reflexivity.
  - by vm_compute.
  - by vm_compute.
Defined.

Lemma falsy_payload_bypasses_restriction_witness :
  @doesFileMatchRegex Fragment.engine "app.ts" "\.md$" = Js.Return false
  /\ isToolAllowed_sample "write_to_file" "architect" [] ReqUndefined
       (params [("path", Js.Str "app.ts"); ("content", Js.Str "")]) None
     = Js.Return true.
Proof.
  split; [reflexivity|].
  refine (@falsy_payload_bypasses_restriction Fragment.engine sampleImports
            "write_to_file" "architect" [] ReqUndefined
            (params [("path", Js.Str "app.ts"); ("content", Js.Str "")]) None
            architectMode [Bare read]
            {| fileRegex := Some "\.md$"; description := Some "Markdown files only" |}
            [Bare browser; Bare command; Bare mcp; Bare review]
            _ eq_refl eq_refl eq_refl eq_refl eq_refl _ _ _ _ _).
  - apply includes_false. reflexivity.
  - intros b Hb. apply list_elem_of_singleton in Hb. subst b.
    apply includes_false. reflexivity.
  - apply includes_true. reflexivity.
  - by vm_compute.
  - by vm_compute.
  - by vm_compute.
Defined.

(** ** The mode registry *)

Section Registry.

Context `{imports : Imports}.

Lemma findIndex_ge {A : Type} (p : A -> bool) (l : list A) :
  (-1 <= Js.findIndex p l)%Z.
Proof.
  induction l as [|x l IH]; simpl; [lia|].
  destruct (p x); [lia|].
  destruct (Z.eqb_spec (Js.findIndex p l) (-1)); lia.
Qed.

(** One step of the source's loop is the specification's replace-or-append. *)
Lemma getAllModes_step_spec acc custom :
  getAllModes_step acc custom = spec_replaceOrAppend custom acc.
Proof.
  unfold getAllModes_step. induction acc as [|m rest IH]; [done|].
  cbn [Js.findIndex spec_replaceOrAppend].
  destruct (String.eqb (slug m) (slug custom)); [done|].
  pose proof (findIndex_ge (fun mode => String.eqb (slug mode) (slug custom)) rest) as Hge.
  set (i := Js.findIndex _ rest) in *. cbv zeta.
  destruct (Z.eqb_spec i (-1)) as [Heq|Hne].
  - simpl in *. by rewrite <- IH.
  - destruct (Z.eqb_spec (i + 1) (-1)) as [Hbad|_]; [lia|].
    replace (Z.to_nat (i + 1)) with (S (Z.to_nat i)) by lia.
    simpl in *. by rewrite IH.
Qed.

Lemma fold_getAllModes_step_spec customs acc :
  fold_left getAllModes_step customs acc
  = fold_left (fun acc custom => spec_replaceOrAppend custom acc) customs acc.
Proof.
  revert acc. induction customs as [|c customs IH]; intros acc; simpl; [done|].
  by rewrite getAllModes_step_spec, IH.
Qed.

Lemma getAllModes_fold customModes :
  getAllModes customModes = fold_left getAllModes_step (default [] customModes) modes.
Proof. by destruct customModes as [[|c l]|]. Qed.

Lemma includes_cons seen s x :
  Js.includes (s :: seen) x = String.eqb x s || Js.includes seen x.
Proof. done. Qed.

Lemma includes_snoc seen s x :
  Js.includes (seen ++ [s]) x = Js.includes (s :: seen) x.
Proof.
  unfold Js.includes. rewrite existsb_app. simpl.
  rewrite orb_false_r. apply orb_comm.
Qed.

Lemma firstOccurrences_ext seen seen' l :
  (forall x, Js.includes seen x = Js.includes seen' x) ->
  firstOccurrences seen l = firstOccurrences seen' l.
Proof.
  revert seen seen'. induction l as [|s l IH]; intros seen seen' Hext; simpl; [done|].
  rewrite <- Hext. destruct (Js.includes seen s); [by apply IH|].
  f_equal. apply IH. intros x. by rewrite !includes_cons, Hext.
Qed.

Lemma spec_replaceOrAppend_slugs custom acc :
  map slug (spec_replaceOrAppend custom acc)
  = if Js.includes (map slug acc) (slug custom) then map slug acc
    else map slug acc ++ [slug custom].
Proof.
  induction acc as [|m rest IH]; [done|].
  cbn [spec_replaceOrAppend map].
  rewrite includes_cons, (String.eqb_sym (slug custom)).
  destruct (String.eqb_spec (slug m) (slug custom)) as [Heq|Hne]; cbn [map orb].
  - by rewrite Heq.
  - rewrite IH. by destruct (Js.includes (map slug rest) (slug custom)).
Qed.

(** The slug sequence of the merge: the slugs of the start sequence, in
    order, then the novel slugs at their first occurrence. *)
Lemma fold_getAllModes_step_slugs customs acc :
  map slug (fold_left getAllModes_step customs acc)
  = map slug acc ++ firstOccurrences (map slug acc) (map slug customs).
Proof.
  revert acc. induction customs as [|c customs IH]; intros acc; simpl.
  - by rewrite app_nil_r.
  - rewrite IH, getAllModes_step_spec, spec_replaceOrAppend_slugs.
    destruct (Js.includes (map slug acc) (slug c)); [done|].
    rewrite <- app_assoc. simpl. do 2 f_equal.
    apply firstOccurrences_ext. intros x. apply includes_snoc.
Qed.

Lemma findBySlug_app s l1 l2 :
  findBySlug s (l1 ++ l2)
  = match findBySlug s l1 with
    | Some m => Some m
    | None => findBySlug s l2
    end.
Proof.
  unfold findBySlug. induction l1 as [|m l1 IH]; simpl; [done|].
  by destruct (String.eqb (slug m) s).
Qed.

Lemma findBySlug_replaceOrAppend s custom acc :
  findBySlug s (spec_replaceOrAppend custom acc)
  = if String.eqb (slug custom) s then Some custom else findBySlug s acc.
Proof.
  unfold findBySlug. induction acc as [|m rest IH]; simpl; [done|].
  destruct (String.eqb_spec (slug m) (slug custom)) as [Heq|Hne]; simpl.
  - rewrite Heq. by destruct (String.eqb (slug custom) s).
  - rewrite IH. destruct (String.eqb_spec (slug m) s) as [Hm|Hm];
      destruct (String.eqb_spec (slug custom) s) as [Hc|Hc]; congruence.
Qed.

(** The entry of a slug in the merge: the last custom mode of that slug,
    and the entry of the start sequence when there is none. *)
Lemma findBySlug_fold s customs acc :
  findBySlug s (fold_left getAllModes_step customs acc)
  = match findBySlug s (rev customs) with
    | Some custom => Some custom
    | None => findBySlug s acc
    end.
Proof.
  revert acc. induction customs as [|c customs IH]; intros acc; simpl; [done|].
  rewrite IH, getAllModes_step_spec, findBySlug_replaceOrAppend, findBySlug_app.
  destruct (findBySlug s (rev customs)); [done|].
  unfold findBySlug at 2. simpl. by destruct (String.eqb (slug c) s).
Qed.

(** A custom mode with the slug of the built-in at index [i] replaces it
    there. *)
Lemma getAllModes_single_override X i m :
  modes !! i = Some m -> slug m = slug X ->
  getAllModes (Some [X]) = <[i := X]> modes.
Proof.
  intros Hi Hslug. unfold getAllModes, fold_left, getAllModes_step.
  do 6 (destruct i as [|i];
        [injection Hi as <-; simpl in Hslug; rewrite <- Hslug; reflexivity|]).
  discriminate.
Qed.

Lemma forEach_callback_spec r (σ : gmap nat (list ModeConfig)) elems custom :
  σ !! r = Some elems ->
  forEach_callback r σ custom = Some (<[r := getAllModes_step elems custom]> σ).
Proof.
  intros Hr. unfold forEach_callback, getAllModes_step. rewrite Hr. simpl.
  by destruct (negb _).
Qed.

Lemma forEach_spec r customs (σ : gmap nat (list ModeConfig)) elems :
  σ !! r = Some elems ->
  forEach (forEach_callback r) customs σ
  = Some (<[r := fold_left getAllModes_step customs elems]> σ).
Proof.
  revert σ elems. induction customs as [|c customs IH]; intros σ elems Hr; simpl.
  - by rewrite insert_id.
  - rewrite (forEach_callback_spec _ _ _ _ Hr). simpl.
    rewrite (IH _ (getAllModes_step elems c)) by apply lookup_insert_eq.
    by rewrite insert_insert_eq.
Qed.

(** On the store, [getAllModes] builds its result in a fresh array and
    leaves every existing array, [modes] included, as it was. *)
Lemma getAllModes_store_spec customModes (σ : gmap nat (list ModeConfig)) :
  σ !! modesRef = Some modes ->
  exists r,
    σ !! r = None
    /\ getAllModes_store customModes σ = Some (r, <[r := getAllModes customModes]> σ).
Proof.
  intros Hmodes. exists (fresh (dom σ)).
  assert (Hfresh : σ !! fresh (dom σ) = None).
  { apply not_elem_of_dom, is_fresh. }
  split; [done|].
  assert (Hspread : spread modesRef σ = Some (fresh (dom σ), <[fresh (dom σ) := modes]> σ)).
  { unfold spread. by rewrite Hmodes. }
  unfold getAllModes_store.
  destruct customModes as [[|c customs]|]; [done| |done].
  rewrite Hspread. simpl.
  rewrite (forEach_callback_spec _ _ modes) by apply lookup_insert_eq. simpl.
  rewrite (forEach_spec _ _ _ (getAllModes_step modes c)) by apply lookup_insert_eq.
  simpl. by rewrite !insert_insert_eq.
Qed.

End Registry.

Section RegistryClaims.

Context `{imports : Imports}.

(** C6: [getAllModes] is the reference merge of the specification: each
    custom mode replaces the entry of its slug in place and is appended when
    its slug is new.  So a single override of a built-in gives the built-in
    sequence with that index replaced (same length); the slugs of the result
    are the built-in slugs in their order followed by the novel slugs in
    supplied order; the entry of a slug is the last custom mode of that slug,
    or the built-in when no custom mode has it; and on the store two calls
    in a row build two distinct arrays of equal contents and leave every
    existing array, the built-in [modes] included, unchanged. *)
Theorem getAllModes_reference_merge (customModes : option (list ModeConfig)) :
  getAllModes customModes = spec_getAll (default [] customModes)
  /\ (forall X i m,
        modes !! i = Some m -> slug m = slug X ->
        getAllModes (Some [X]) = <[i := X]> modes
        /\ length (getAllModes (Some [X])) = length modes)
  /\ map slug (getAllModes customModes)
     = map slug modes
       ++ firstOccurrences (map slug modes) (map slug (default [] customModes))
  /\ (forall s,
        findBySlug s (getAllModes customModes)
        = match findBySlug s (rev (default [] customModes)) with
          | Some custom => Some custom
          | None => findBySlug s modes
          end)
  /\ (forall σ : gmap nat (list ModeConfig),
        σ !! modesRef = Some modes ->
        exists r1 σ1 r2 σ2,
          getAllModes_store customModes σ = Some (r1, σ1)
          /\ getAllModes_store customModes σ1 = Some (r2, σ2)
          /\ r1 <> r2
          /\ σ2 !! r1 = Some (getAllModes customModes)
          /\ σ2 !! r2 = Some (getAllModes customModes)
          /\ σ2 !! modesRef = Some modes
          /\ forall l, is_Some (σ !! l) -> σ2 !! l = σ !! l).
Proof.
  split; [|split; [|split; [|split]]].
  - rewrite getAllModes_fold. apply fold_getAllModes_step_spec.
  - intros X i m Hi Hslug.
    rewrite (getAllModes_single_override X i m Hi Hslug).
    split; [done | apply length_insert].
  - rewrite getAllModes_fold. apply fold_getAllModes_step_slugs.
  - intros s. rewrite getAllModes_fold. apply findBySlug_fold.
  - intros σ Hmodes.
    destruct (getAllModes_store_spec customModes σ Hmodes) as (r1 & Hr1 & Hrun1).
    assert (Hne1 : r1 <> modesRef) by (intros ->; congruence).
    assert (Hmodes1 : <[r1 := getAllModes customModes]> σ !! modesRef = Some modes).
    { by rewrite lookup_insert_ne. }
    destruct (getAllModes_store_spec customModes _ Hmodes1) as (r2 & Hr2 & Hrun2).
    assert (Hne2 : r2 <> modesRef) by (intros ->; congruence).
    assert (Hne : r1 <> r2).
    { intros <-. by rewrite lookup_insert_eq in Hr2. }
    exists r1, (<[r1 := getAllModes customModes]> σ),
           r2, (<[r2 := getAllModes customModes]> (<[r1 := getAllModes customModes]> σ)).
    split; [done|]. split; [done|]. split; [done|].
    split; [by rewrite lookup_insert_ne, lookup_insert_eq|].
    split; [by rewrite lookup_insert_eq|].
    split; [by rewrite !lookup_insert_ne|].
    intros l [x Hl].
    rewrite !lookup_insert_ne; [done | intros <-; congruence | intros <-].
    rewrite lookup_insert_ne in Hr2; [congruence|done].
Qed.

(** C7, amended: the grants of the built-in modes.  "code" grants read,
    edit, browser, command, mcp and review; "architect" grants read, edit
    scoped to [\.md$], browser, command, mcp and review; "ask" grants read,
    browser and mcp; "debug" grants read, edit, browser, command and mcp;
    "reviewer" grants read, edit scoped to the review-response pattern,
    browser, command, mcp and review; "orchestrator" grants nothing. *)
Theorem builtin_grants :
  map (fun mode => (slug mode, grantsOf mode)) modes
  = [ ("code", [(read, None); (edit, None); (browser, None); (command, None);
                (mcp, None); (review, None)]);
      ("architect", [(read, None); (edit, Some "\.md$"); (browser, None);
                     (command, None); (mcp, None); (review, None)]);
      ("ask", [(read, None); (browser, None); (mcp, None)]);
      ("debug", [(read, None); (edit, None); (browser, None); (command, None);
                 (mcp, None)]);
      ("reviewer", [(read, None); (edit, Some "\.agent/review_response_.*\.md$");
                    (browser, None); (command, None); (mcp, None); (review, None)]);
      ("orchestrator", []) ].
Proof. reflexivity. Qed.

(** C8: [getModeBySlug] returns the first custom mode of the slug when
    there is one, even if a built-in has the slug too; otherwise the
    built-in of that slug; and [None] when the slug is in neither.
    [getModeConfig] returns the same mode when there is one and throws
    "No mode found for slug" when there is none. *)
Theorem getModeBySlug_lookup (s : string) (customModes : option (list ModeConfig)) :
  (s ∈ map slug (default [] customModes) ->
   exists before custom after,
     default [] customModes = before ++ custom :: after
     /\ (s ∉ map slug before)
     /\ slug custom = s
     /\ getModeBySlug s customModes = Some custom)
  /\ (s ∉ map slug (default [] customModes) ->
      getModeBySlug s customModes = findBySlug s modes
      /\ (s ∈ map slug modes ->
          exists m, getModeBySlug s customModes = Some m /\ m ∈ modes /\ slug m = s)
      /\ (s ∉ map slug modes ->
          getModeBySlug s customModes = None
          /\ getModeConfig s customModes
             = Js.Throw (Js.Error ("No mode found for slug: " +:+ s))))
  /\ (forall m, getModeBySlug s customModes = Some m ->
                getModeConfig s customModes = Js.Return m)
  /\ getModeBySlug "nonexistent" (Some []) = None
  /\ getModeConfig "nonexistent" (Some [])
     = Js.Throw (Js.Error "No mode found for slug: nonexistent").
Proof.
  assert (Hcustom :
    getModeBySlug s customModes
    = match findBySlug s (default [] customModes) with
      | Some custom => Some custom
      | None => findBySlug s modes
      end) by (by destruct customModes).
  split; [|split; [|split; [|split]]].
  - intros Hin. apply findBySlug_is_Some in Hin as [custom Hfind].
    rewrite Hcustom, Hfind.
    pose proof Hfind as Hsplit. unfold findBySlug in Hsplit.
    clear Hcustom. induction (default [] customModes) as [|c l IH]; [done|].
    simpl in Hsplit. destruct (String.eqb_spec (slug c) s) as [Heq|Hne].
    + injection Hsplit as <-. exists [], c, l. repeat split; try done.
      apply not_elem_of_nil.
    + apply findBySlug_Some in Hfind as Hc.
      assert (Hl : findBySlug s l = Some custom).
      { unfold findBySlug in *. simpl in Hfind.
        by destruct (String.eqb_spec (slug c) s). }
      destruct (IH Hl Hsplit) as (before & c' & after & -> & Hbefore & Hslug & Hres).
      exists (c :: before), c', after. repeat split; try done.
      simpl. rewrite not_elem_of_cons. by split.
  - intros Hnot. assert (Hnone : findBySlug s (default [] customModes) = None)
      by (by apply findBySlug_None).
    rewrite Hcustom, Hnone. split; [done|]. split.
    + intros Hin. apply findBySlug_is_Some in Hin as [m Hm].
      exists m. apply findBySlug_Some in Hm as Hm'. by destruct Hm'.
    + intros Hnot'. apply findBySlug_None in Hnot' as Hnone'.
      split; [done|]. unfold getModeConfig. by rewrite Hcustom, Hnone, Hnone'.
  - intros m Hm. unfold getModeConfig. by rewrite Hm.
  - reflexivity.
  - reflexivity.
Qed.

End RegistryClaims.

Lemma getAllModes_reference_merge_witness :
  @getAllModes sampleImports (Some [customCode])
  = <[0 := customCode]> (@modes sampleImports)
  /\ length (@getAllModes sampleImports (Some [customCode])) = 6
  /\ map slug (@getAllModes sampleImports (Some [docsMode; customCode; brokenMode; docsMode]))
     = ["code"; "architect"; "ask"; "debug"; "reviewer"; "orchestrator"; "docs"; "broken"]
  /\ @findBySlug "code" (@getAllModes sampleImports (Some [docsMode; customCode]))
     = Some customCode.
Proof.
  destruct (@getAllModes_reference_merge sampleImports (Some [customCode]))
    as (_ & Hsingle & _).
  destruct (Hsingle customCode 0 (@codeMode sampleImports) eq_refl eq_refl)
    as [Hoverride Hlength].
  split; [exact Hoverride|]. split; [exact Hlength|].
  split.
  - destruct (@getAllModes_reference_merge sampleImports
                (Some [docsMode; customCode; brokenMode; docsMode]))
      as (_ & _ & Hslugs & _).
    rewrite Hslugs. reflexivity.
  - destruct (@getAllModes_reference_merge sampleImports (Some [docsMode; customCode]))
      as (_ & _ & _ & Hfind & _).
    rewrite Hfind. reflexivity.
Defined.

(** C7 as stated fails: "architect" also grants command (and review), and
    "code" grants review, which "debug" does not. *)
Lemma builtin_grants_counterexample :
  @getModeBySlug sampleImports "architect" None = Some (@architectMode sampleImports)
  /\ spec_grants "architect"
     = Some [(read, None); (edit, Some "\.md$"); (browser, None); (mcp, None)]
  /\ ((command, None) ∈ grantsOf (@architectMode sampleImports))
  /\ ((command, None) ∉ [(read, None); (edit, Some "\.md$"); (browser, None);
                         (mcp, @None string)])
  /\ sameGrants (grantsOf (@architectMode sampleImports))
       (default [] (spec_grants "architect")) = false
  /\ sameGrants (grantsOf (@debugMode sampleImports)) (grantsOf (@codeMode sampleImports))
     = false.
Proof.
  split; [reflexivity|]. split; [reflexivity|].
  split; [apply list_elem_of_In; simpl; auto 10|].
  split; [rewrite list_elem_of_In; simpl; intros Hin; intuition discriminate|].
  split; by vm_compute.
Qed.

Lemma getModeBySlug_lookup_witness :
  @getModeBySlug sampleImports "code" (Some [docsMode; customCode]) = Some customCode
  /\ @getModeBySlug sampleImports "ask" (Some [docsMode; customCode])
     = Some (@askMode sampleImports)
  /\ @getModeBySlug sampleImports "absent" (Some [docsMode]) = None
  /\ @getModeConfig sampleImports "absent" (Some [docsMode])
     = Js.Throw (Js.Error "No mode found for slug: absent").
Proof.
  split; [|split].
  - destruct (@getModeBySlug_lookup sampleImports "code" (Some [docsMode; customCode]))
      as (Hcustom & _).
    destruct Hcustom as (before & custom & after & Hsplit & Hbefore & Hslug & Hres).
    + apply includes_true. reflexivity.
    + rewrite Hres. f_equal.
      destruct before as [|b before].
      * injection Hsplit as <- _. discriminate Hslug.
      * injection Hsplit as <- Hrest. destruct before as [|b' before].
        -- by injection Hrest as <- _.
        -- injection Hrest as <- Hrest. by destruct before.
  - destruct (@getModeBySlug_lookup sampleImports "ask" (Some [docsMode; customCode]))
      as (_ & Hbuiltin & _).
    destruct Hbuiltin as (Heq & _).
    + apply includes_false. reflexivity.
    + rewrite Heq. reflexivity.
  - destruct (@getModeBySlug_lookup sampleImports "absent" (Some [docsMode]))
      as (_ & Hbuiltin & _).
    destruct Hbuiltin as (_ & _ & Habsent).
    + apply includes_false. reflexivity.
    + apply Habsent. apply includes_false. reflexivity.
Defined.

(** ** Tool lists *)

Section ToolLists.

Context `{host : RegExpHost} `{imports : Imports}.

Lemma Set_add_elem set x y : x ∈ Set_add set y <-> x ∈ set \/ x = y.
Proof.
  unfold Set_add. destruct (Js.includes set y) eqn:Hin.
  - apply includes_true in Hin. split; [by left | by intros [?| ->]].
  - by rewrite elem_of_app, list_elem_of_singleton.
Qed.

Lemma Set_add_NoDup set y : NoDup set -> NoDup (Set_add set y).
Proof.
  intros Hnd. unfold Set_add. destruct (Js.includes set y) eqn:Hin; [done|].
  apply includes_false in Hin. apply NoDup_app. split; [done|]. split.
  - intros x Hx Hy. apply list_elem_of_singleton in Hy. by subst x.
  - apply NoDup_singleton.
Qed.

Lemma fold_Set_add_elem l set x :
  x ∈ fold_left Set_add l set <-> x ∈ set \/ x ∈ l.
Proof.
  revert set. induction l as [|y l IH]; intros set; simpl.
  - split; [by left | intros [?|Hx]; [done | by apply elem_of_nil in Hx]].
  - rewrite IH, Set_add_elem, elem_of_cons. tauto.
Qed.

Lemma fold_Set_add_NoDup l set : NoDup set -> NoDup (fold_left Set_add l set).
Proof.
  revert set. induction l as [|y l IH]; intros set Hnd; simpl; [done|].
  by apply IH, Set_add_NoDup.
Qed.

Lemma groups_fold_elem gs set x :
  x ∈ fold_left (fun toolSet group =>
                   fold_left Set_add (tools (TOOL_GROUPS (getGroupName group))) toolSet)
                gs set
  <-> x ∈ set \/ exists g, g ∈ gs /\ x ∈ tools (TOOL_GROUPS (getGroupName g)).
Proof.
  revert set. induction gs as [|g gs IH]; intros set; simpl.
  - split; [by left | intros [?|(g & Hg & _)]; [done | by apply elem_of_nil in Hg]].
  - rewrite IH, fold_Set_add_elem. split.
    + intros [[?|?]|(g' & Hg' & Hx)]; [by left | right; exists g | right; exists g'].
      * split; [apply list_elem_of_here | done].
      * split; [by apply list_elem_of_further | done].
    + intros [?|(g' & Hg' & Hx)]; [by left; left|].
      apply elem_of_cons in Hg' as [->|Hg']; [by left; right | right; by exists g'].
Qed.

Lemma groups_fold_NoDup gs set :
  NoDup set ->
  NoDup (fold_left (fun toolSet group =>
                      fold_left Set_add (tools (TOOL_GROUPS (getGroupName group))) toolSet)
                   gs set).
Proof.
  revert set. induction gs as [|g gs IH]; intros set Hnd; simpl; [done|].
  by apply IH, fold_Set_add_NoDup.
Qed.

Lemma getToolsForMode_elem gs x :
  x ∈ getToolsForMode gs
  <-> x ∈ ALWAYS_AVAILABLE_TOOLS
      \/ exists g, g ∈ gs /\ x ∈ tools (TOOL_GROUPS (getGroupName g)).
Proof.
  unfold getToolsForMode. rewrite fold_Set_add_elem, groups_fold_elem.
  split; [intros [[Hnil|?]|?] | intros [?|?]]; auto.
  by apply elem_of_nil in Hnil.
Qed.

(** As a boolean: the list has the tool when it is always available or some
    declared group has it. *)
Lemma getToolsForMode_includes gs tool :
  Js.includes (getToolsForMode gs) tool
  = Js.includes ALWAYS_AVAILABLE_TOOLS tool
    || existsb (fun g => Js.includes (tools (TOOL_GROUPS (getGroupName g))) tool) gs.
Proof.
  apply eq_true_iff_eq.
  rewrite orb_true_iff, existsb_exists, !includes_true, getToolsForMode_elem.
  split; (intros [?|(g & Hg & Hin)]; [by left | right; exists g]).
  - split; [by apply list_elem_of_In | by apply includes_true].
  - split; [by apply list_elem_of_In | by apply includes_true].
Qed.

(** When every entry that has the tool allows it, the loop is a membership
    test. *)
Lemma forGroups_allows mode tool toolParams gs :
  (forall g, g ∈ gs -> groupDecision mode toolParams g = Js.Return true) ->
  forGroups mode tool toolParams gs
  = Js.Return (existsb (fun g => Js.includes (tools (TOOL_GROUPS (getGroupName g))) tool) gs).
Proof.
  induction gs as [|g gs IH]; intros Hallow; simpl; [done|].
  destruct (Js.includes (tools (TOOL_GROUPS (getGroupName g))) tool); simpl.
  - apply Hallow, list_elem_of_here.
  - apply IH. intros g' Hg'. by apply Hallow, list_elem_of_further.
Qed.

Lemma groupDecision_without_path mode toolParams g :
  Js.truthy (Js.get toolParams "path") = false ->
  groupDecision mode toolParams g = Js.Return true.
Proof.
  intros Hpath. unfold groupDecision. destruct (getGroupOptions g) as [options|]; [|done].
  rewrite Hpath. simpl. by destruct (_ && _).
Qed.

Lemma groupDecision_without_options mode toolParams g :
  getGroupOptions g = None -> groupDecision mode toolParams g = Js.Return true.
Proof. intros Hnone. unfold groupDecision. by rewrite Hnone. Qed.

(** X1: [getToolsForMode] returns a list without duplicates whose members are
    exactly the always-available tools and the tools of the declared groups,
    however often a group is declared and whatever tools the groups share. *)
Theorem getToolsForMode_set (gs : list GroupEntry) :
  NoDup (getToolsForMode gs)
  /\ forall tool,
      tool ∈ getToolsForMode gs
      <-> tool ∈ ALWAYS_AVAILABLE_TOOLS
          \/ exists g, g ∈ gs /\ tool ∈ tools (TOOL_GROUPS (getGroupName g)).
Proof.
  split; [|apply getToolsForMode_elem].
  unfold getToolsForMode. apply fold_Set_add_NoDup, groups_fold_NoDup, NoDup_nil_2.
Qed.

(** X2: whatever the requirements, parameters and experiments, a tool that
    [isToolAllowedForMode] allows is in the tool list of the resolved mode;
    when the slug resolves to no mode it is an always-available tool. *)
Theorem allowed_tool_is_listed tool modeSlug customModes toolRequirements toolParams
    experiments :
  isToolAllowedForMode tool modeSlug customModes toolRequirements toolParams experiments
  = Js.Return true ->
  match getModeBySlug modeSlug (Some customModes) with
  | Some mode => tool ∈ getToolsForMode (groups mode)
  | None => tool ∈ ALWAYS_AVAILABLE_TOOLS
  end.
Proof.
  unfold isToolAllowedForMode. intros Hallowed.
  destruct (Js.includes ALWAYS_AVAILABLE_TOOLS tool) eqn:Halways.
  - apply includes_true in Halways.
    destruct (getModeBySlug modeSlug (Some customModes)); [|done].
    apply getToolsForMode_elem. by left.
  - destruct (experimentsDeny tool experiments); [discriminate|].
    destruct (requirementsDeny tool toolRequirements); [discriminate|].
    destruct (getModeBySlug modeSlug (Some customModes)) as [mode|]; [|discriminate].
    rewrite forGroups_find in Hallowed.
    destruct (find _ (groups mode)) as [g|] eqn:Hfind; [|discriminate].
    apply find_some in Hfind as [Hg Hin].
    apply getToolsForMode_elem. right. exists g.
    split; [by apply list_elem_of_In | by apply includes_true].
Qed.

(** X3: for a call without a path (a lookup rather than an edit), the
    resolver never throws and allows exactly the tools of the resolved
    mode's tool list that neither gate denies. *)
Theorem pathless_call_is_membership tool modeSlug customModes toolRequirements
    toolParams experiments mode :
  getModeBySlug modeSlug (Some customModes) = Some mode ->
  Js.truthy (Js.get toolParams "path") = false ->
  isToolAllowedForMode tool modeSlug customModes toolRequirements toolParams experiments
  = Js.Return
      (Js.includes ALWAYS_AVAILABLE_TOOLS tool
       || negb (experimentsDeny tool experiments)
          && negb (requirementsDeny tool toolRequirements)
          && Js.includes (getToolsForMode (groups mode)) tool).
Proof.
  intros Hmode Hpath. unfold isToolAllowedForMode. rewrite Hmode.
  rewrite getToolsForMode_includes.
  destruct (Js.includes ALWAYS_AVAILABLE_TOOLS tool); [done|].
  destruct (experimentsDeny tool experiments); [done|].
  destruct (requirementsDeny tool toolRequirements); [done|]. simpl.
  apply forGroups_allows. intros g _. by apply groupDecision_without_path.
Qed.

(** X4: in a mode none of whose entries carries options, the resolver never
    throws, whatever the parameters: with both gates open it is the
    membership test of the mode's tool list. *)
Theorem unscoped_mode_is_membership tool modeSlug customModes toolParams mode :
  getModeBySlug modeSlug (Some customModes) = Some mode ->
  (forall g, g ∈ groups mode -> getGroupOptions g = None) ->
  isToolAllowedForMode tool modeSlug customModes ReqUndefined toolParams None
  = Js.Return (Js.includes (getToolsForMode (groups mode)) tool).
Proof.
  intros Hmode Hbare. unfold isToolAllowedForMode. rewrite Hmode.
  rewrite getToolsForMode_includes.
  destruct (Js.includes ALWAYS_AVAILABLE_TOOLS tool); [done|]. simpl.
  apply forGroups_allows. intros g Hg. by apply groupDecision_without_options, Hbare.
Qed.

(** X5: the only exception [isToolAllowedForMode] raises is the
    [FileRestrictionError], and only for a tool of the edit group, outside
    the always-available set, in a resolved mode that declares a scoped edit
    entry, on a call with a truthy path and a truthy diff, content or
    operations whose path the pattern does not match. *)
Theorem resolver_throws_only_path_restriction tool modeSlug customModes toolRequirements
    toolParams experiments e :
  isToolAllowedForMode tool modeSlug customModes toolRequirements toolParams experiments
  = Js.Throw e ->
  exists mode options pattern,
    getModeBySlug modeSlug (Some customModes) = Some mode
    /\ Scoped edit options ∈ groups mode
    /\ fileRegex options = Some pattern
    /\ tool ∈ tools (TOOL_GROUPS edit)
    /\ (tool ∉ ALWAYS_AVAILABLE_TOOLS)
    /\ Js.truthy (Js.get toolParams "path") = true
    /\ (Js.truthy (Js.get toolParams "diff")
        || Js.truthy (Js.get toolParams "content")
        || Js.truthy (Js.get toolParams "operations")) = true
    /\ doesFileMatchRegex (Js.to_string (Js.get toolParams "path")) pattern
       = Js.Return false
    /\ e = FileRestrictionError (name mode) pattern (description options)
             (Js.to_string (Js.get toolParams "path")).
Proof.
  unfold isToolAllowedForMode. intros Hthrow.
  destruct (Js.includes ALWAYS_AVAILABLE_TOOLS tool) eqn:Halways; [discriminate|].
  destruct (experimentsDeny tool experiments); [discriminate|].
  destruct (requirementsDeny tool toolRequirements); [discriminate|].
  destruct (getModeBySlug modeSlug (Some customModes)) as [mode|]; [|discriminate].
  rewrite forGroups_find in Hthrow.
  destruct (find _ (groups mode)) as [g|] eqn:Hfind; [|discriminate].
  apply find_some in Hfind as [Hg Hin].
  destruct (groupDecision_cases mode toolParams g) as [Hok|Hbad]; [congruence|].
  destruct Hbad as (options & pattern & -> & Hre & Hpath & Hedit & Hmatch & Hdec).
  exists mode, options, pattern.
  split; [done|]. split; [by apply list_elem_of_In|]. split; [done|].
  split; [by apply includes_true|]. split; [by apply includes_false|].
  split; [done|]. split; [done|]. split; [done|]. congruence.
Qed.

(** X6: the two gates only deny: with any [toolRequirements] and
    [experiments] the resolver either returns [false] or does exactly what
    it does with neither argument supplied. *)
Theorem gates_only_deny tool modeSlug customModes toolRequirements toolParams experiments :
  isToolAllowedForMode tool modeSlug customModes toolRequirements toolParams experiments
  = Js.Return false
  \/ isToolAllowedForMode tool modeSlug customModes toolRequirements toolParams experiments
     = isToolAllowedForMode tool modeSlug customModes ReqUndefined toolParams None.
Proof.
  unfold isToolAllowedForMode.
  destruct (Js.includes ALWAYS_AVAILABLE_TOOLS tool); [by right|].
  destruct (experimentsDeny tool experiments); [by left|].
  destruct (requirementsDeny tool toolRequirements); [by left | by right].
Qed.

End ToolLists.

(** ** The merged mode set *)

Section MergedSet.

Context `{imports : Imports}.

Lemma isCustomMode_true s customModes :
  isCustomMode s customModes = true <-> s ∈ map slug (default [] customModes).
Proof.
  unfold isCustomMode. destruct customModes as [l|]; simpl.
  - rewrite existsb_exists, list_elem_of_In, in_map_iff. split.
    + intros (m & Hm & Heq). apply String.eqb_eq in Heq. by exists m.
    + intros (m & Heq & Hm). exists m. split; [done | by apply String.eqb_eq].
  - split; [discriminate | intros Hin; by apply elem_of_nil in Hin].
Qed.

Lemma modes_slugs_NoDup : NoDup (map slug modes).
Proof.
  cbn. repeat (apply NoDup_cons; split; [by apply includes_false|]). apply NoDup_nil_2.
Qed.

Lemma firstOccurrences_elem seen l x :
  x ∈ firstOccurrences seen l <-> x ∈ l /\ x ∉ seen.
Proof.
  revert seen. induction l as [|s l IH]; intros seen; simpl.
  - split; [intros Hx; by apply elem_of_nil in Hx | intros [Hx _]; by apply elem_of_nil in Hx].
  - destruct (Js.includes seen s) eqn:Hin.
    + apply includes_true in Hin. rewrite IH, elem_of_cons. split; [tauto|].
      intros [[->|?] Hn]; [done | tauto].
    + apply includes_false in Hin. rewrite !elem_of_cons, IH, not_elem_of_cons. split.
      * intros [->|(? & ? & ?)]; tauto.
      * intros [[->|?] Hn]; [by left|]. destruct (decide (x = s)); [by left | tauto].
Qed.

Lemma firstOccurrences_NoDup seen l : NoDup (firstOccurrences seen l).
Proof.
  revert seen. induction l as [|s l IH]; intros seen; simpl; [apply NoDup_nil_2|].
  destruct (Js.includes seen s); [apply IH|].
  apply NoDup_cons. split; [|apply IH].
  rewrite firstOccurrences_elem, not_elem_of_cons. tauto.
Qed.

Lemma firstOccurrences_length seen l : length (firstOccurrences seen l) <= length l.
Proof.
  revert seen. induction l as [|s l IH]; intros seen; simpl; [done|].
  destruct (Js.includes seen s); simpl; [specialize (IH seen) | specialize (IH (s :: seen))]; lia.
Qed.

(** With distinct slugs the first and the last entry of a slug coincide. *)
Lemma findBySlug_rev s l :
  NoDup (map slug l) -> findBySlug s (rev l) = findBySlug s l.
Proof.
  induction l as [|c l IH]; intros Hnd; [done|].
  simpl in Hnd. apply NoDup_cons in Hnd as [Hc Hnd].
  simpl. rewrite findBySlug_app, (IH Hnd). unfold findBySlug at 2 3. simpl.
  destruct (String.eqb_spec (slug c) s) as [Heq|Hne].
  - subst s. apply findBySlug_None in Hc. by rewrite Hc.
  - fold (findBySlug s l). by destruct (findBySlug s l).
Qed.

Lemma spec_replaceOrAppend_app custom done rest :
  slug custom ∉ map slug done ->
  spec_replaceOrAppend custom (done ++ rest) = done ++ spec_replaceOrAppend custom rest.
Proof.
  induction done as [|m done IH]; intros Hnot; [done|].
  simpl in Hnot. apply not_elem_of_cons in Hnot as [Hne Hnot]. simpl.
  destruct (String.eqb_spec (slug m) (slug custom)); [congruence|].
  by rewrite IH.
Qed.

(** Merging a sequence of distinct slugs into a start sequence whose slugs
    are a prefix of its own gives back the sequence. *)
Lemma fold_getAllModes_step_prefix todo done tail :
  NoDup (map slug (done ++ todo)) ->
  map slug tail `prefix_of` map slug todo ->
  fold_left getAllModes_step todo (done ++ tail) = done ++ todo.
Proof.
  revert done tail. induction todo as [|t todo IH]; intros done tail Hnd Hpre.
  - apply prefix_nil_inv in Hpre. apply map_eq_nil in Hpre. by subst tail.
  - assert (Hfresh : slug t ∉ map slug done).
    { rewrite map_app in Hnd. apply NoDup_app in Hnd as (_ & Hdis & _).
      intros Hin. apply (Hdis _ Hin). simpl. apply list_elem_of_here. }
    assert (Hnd' : NoDup (map slug ((done ++ [t]) ++ todo))) by (by rewrite <- app_assoc).
    simpl. rewrite getAllModes_step_spec, spec_replaceOrAppend_app by done.
    destruct tail as [|a tail]; simpl.
    + pose proof (IH (done ++ [t]) [] Hnd' (prefix_nil _)) as Hstep.
      rewrite app_nil_r in Hstep. rewrite Hstep. by rewrite <- app_assoc.
    + simpl in Hpre. destruct Hpre as [k Hk]. injection Hk as Ha Hk.
      rewrite <- Ha, String.eqb_refl.
      assert (Hpre' : map slug tail `prefix_of` map slug todo) by (by exists k).
      pose proof (IH (done ++ [t]) tail Hnd' Hpre') as Hstep.
      rewrite <- !app_assoc in Hstep. exact Hstep.
Qed.

(** X7: [isCustomMode] is true exactly for the slugs of the custom modes;
    when it is true [getModeBySlug] returns one of the custom modes, and when
    it is false [getModeBySlug] is the lookup among the built-ins. *)
Theorem isCustomMode_lookup (s : string) (customModes : option (list ModeConfig)) :
  (isCustomMode s customModes = true <-> s ∈ map slug (default [] customModes))
  /\ (isCustomMode s customModes = true ->
      exists m, getModeBySlug s customModes = Some m
                /\ m ∈ default [] customModes /\ slug m = s)
  /\ (isCustomMode s customModes = false ->
      getModeBySlug s customModes = findBySlug s modes).
Proof.
  split; [apply isCustomMode_true|]. split.
  - intros Hcustom. apply isCustomMode_true, findBySlug_is_Some in Hcustom as [m Hm].
    exists m. apply findBySlug_Some in Hm as Hm'. destruct Hm' as [Hslug Hin].
    split; [|done]. unfold getModeBySlug. destruct customModes as [l|]; simpl in *.
    + by rewrite Hm.
    + by apply elem_of_nil in Hin.
  - intros Hnot. assert (Hnone : findBySlug s (default [] customModes) = None).
    { apply findBySlug_None. rewrite <- isCustomMode_true. congruence. }
    unfold getModeBySlug. destruct customModes as [l|]; simpl in *; [by rewrite Hnone | done].
Qed.

Lemma findBySlug_getAllModes customs s :
  NoDup (map slug customs) ->
  findBySlug s (getAllModes (Some customs)) = getModeBySlug s (Some customs).
Proof.
  intros Hnd. rewrite getAllModes_fold. simpl.
  rewrite findBySlug_fold, findBySlug_rev by done. reflexivity.
Qed.

(** X8: when the custom modes have distinct slugs, looking a slug up in
    [getAllModes] gives what [getModeBySlug] gives.  With a repeated slug
    they can differ: [getModeBySlug] takes the first custom mode of the slug,
    [getAllModes] keeps the last. *)
Theorem getAllModes_agrees_with_getModeBySlug :
  (forall customs s,
      NoDup (map slug customs) ->
      findBySlug s (getAllModes (Some customs)) = getModeBySlug s (Some customs))
  /\ findBySlug "code" (getAllModes (Some [customCode; otherCode])) = Some otherCode
  /\ getModeBySlug "code" (Some [customCode; otherCode]) = Some customCode.
Proof.
  split; [|by split]. intros customs s Hnd. by apply findBySlug_getAllModes.
Qed.

Lemma getAllModes_slugs customModes :
  map slug (getAllModes customModes)
  = map slug modes
    ++ firstOccurrences (map slug modes) (map slug (default [] customModes)).
Proof. rewrite getAllModes_fold. apply fold_getAllModes_step_slugs. Qed.

Lemma getAllModes_slugs_NoDup customModes :
  NoDup (map slug (getAllModes customModes)).
Proof.
  rewrite getAllModes_slugs. apply NoDup_app. split; [apply modes_slugs_NoDup|].
  split; [|apply firstOccurrences_NoDup].
  intros s Hs Hin. apply firstOccurrences_elem in Hin. tauto.
Qed.

(** X9: the slugs of [getAllModes] are pairwise distinct, even when the
    custom modes repeat a slug; they are exactly the built-in slugs and the
    custom slugs; and the result has at least as many modes as the built-ins
    and at most as many as built-ins and custom modes together. *)
Theorem getAllModes_slugs_unique (customModes : option (list ModeConfig)) :
  NoDup (map slug (getAllModes customModes))
  /\ (forall s,
        s ∈ map slug (getAllModes customModes)
        <-> s ∈ map slug modes \/ s ∈ map slug (default [] customModes))
  /\ length modes <= length (getAllModes customModes)
     <= length modes + length (default [] customModes).
Proof.
  split; [apply getAllModes_slugs_NoDup|].
  pose proof (getAllModes_slugs customModes) as Hslugs.
  split.
  - intros s. rewrite Hslugs, elem_of_app, firstOccurrences_elem.
    destruct (decide (s ∈ map slug modes)); tauto.
  - apply (f_equal length) in Hslugs. rewrite length_app, !length_map in Hslugs.
    pose proof (firstOccurrences_length (map slug modes)
                  (map slug (default [] customModes))) as Hlen.
    rewrite length_map in Hlen. lia.
Qed.

(** X10: merging the merged set again changes nothing: [getAllModes] applied
    to its own result returns that result. *)
Theorem getAllModes_remerge (customModes : option (list ModeConfig)) :
  getAllModes (Some (getAllModes customModes)) = getAllModes customModes.
Proof.
  rewrite (getAllModes_fold (Some _)). simpl.
  apply (fold_getAllModes_step_prefix (getAllModes customModes) [] modes).
  - apply getAllModes_slugs_NoDup.
  - rewrite getAllModes_slugs. by eexists.
Qed.

End MergedSet.

(** ** Prompt overrides *)

Section PromptOverrides.

Context `{imports : Imports} `{sections : PromptSections}.

Lemma getModeBySlug_slug s customModes m :
  getModeBySlug s customModes = Some m -> slug m = s.
Proof.
  unfold getModeBySlug. destruct customModes as [l|].
  - destruct (findBySlug s l) as [c|] eqn:Hc.
    + intros [= <-]. by apply findBySlug_Some in Hc as [? _].
    + intros Hm. by apply findBySlug_Some in Hm as [? _].
  - intros Hm. by apply findBySlug_Some in Hm as [? _].
Qed.

(** The second lookup of [getFullModeDetails] never finds what
    [getModeBySlug] missed. *)
Lemma getModeBySlug_None_builtin s customModes :
  getModeBySlug s customModes = None -> findBySlug s modes = None.
Proof.
  unfold getModeBySlug. destruct customModes as [l|]; [|done].
  by destruct (findBySlug s l).
Qed.

Lemma findBySlug_map (f : ModeConfig -> ModeConfig) s l :
  (forall m, slug (f m) = slug m) ->
  findBySlug s (map f l) = f <$> findBySlug s l.
Proof.
  intros Hslug. unfold findBySlug. induction l as [|m l IH]; simpl; [done|].
  rewrite Hslug. by destruct (String.eqb (slug m) s).
Qed.

Lemma find_app {A : Type} (p : A -> bool) (l1 l2 : list A) :
  find p (l1 ++ l2) = match find p l1 with Some x => Some x | None => find p l2 end.
Proof. induction l1 as [|x l1 IH]; simpl; [done|]. by destruct (p x). Qed.

(** A key of [Object.fromEntries] reads the last entry of that key. *)
Lemma Object_fromEntries_lookup {V : Type} (entries : list (string * V))
    (o : gmap string V) (k : string) :
  fold_left (fun o entry => <[entry.1 := entry.2]> o) entries o !! k
  = match find (fun entry => String.eqb entry.1 k) (rev entries) with
    | Some entry => Some entry.2
    | None => o !! k
    end.
Proof.
  revert o. induction entries as [|e entries IH]; intros o; simpl; [done|].
  rewrite IH, find_app. destruct (find _ (rev entries)); [done|]. simpl.
  destruct (String.eqb_spec e.1 k) as [Heq|Hne].
  - by rewrite Heq, lookup_insert_eq.
  - by rewrite lookup_insert_ne.
Qed.

(** X11: prompt overrides never touch what permissions read: the modes of
    [getAllModesWithPrompts] have the slugs, names and groups of
    [getAllModes] on the stored custom modes, in the same order; with no
    stored overrides (none, or an empty record) the result is [getAllModes]
    itself; and missing custom modes read as none. *)
Theorem getAllModesWithPrompts_preserves (context : ExtensionContext) :
  let customModes := default [] (globalState_customModes context) in
  map slug (getAllModesWithPrompts context) = map slug (getAllModes (Some customModes))
  /\ map name (getAllModesWithPrompts context) = map name (getAllModes (Some customModes))
  /\ map groups (getAllModesWithPrompts context)
     = map groups (getAllModes (Some customModes))
  /\ getAllModesWithPrompts
       {| globalState_customModes := globalState_customModes context;
          globalState_customModePrompts := None |}
     = getAllModes (Some customModes)
  /\ getAllModesWithPrompts
       {| globalState_customModes := globalState_customModes context;
          globalState_customModePrompts := Some ∅ |}
     = getAllModes (Some customModes)
  /\ getAllModesWithPrompts
       {| globalState_customModes := None;
          globalState_customModePrompts := globalState_customModePrompts context |}
     = getAllModesWithPrompts
         {| globalState_customModes := Some [];
            globalState_customModePrompts := globalState_customModePrompts context |}.
Proof.
  intros customModes. unfold getAllModesWithPrompts. fold customModes.
  rewrite !map_map. simpl.
  split; [done|]. split; [done|]. split; [done|].
  assert (Hid : forall l : list ModeConfig,
    map (fun mode =>
           {| slug := slug mode; name := name mode;
              roleDefinition :=
                nullish ((∅ : gmap string PromptComponent.t) !! slug mode
                           ≫= PromptComponent.roleDefinition) (roleDefinition mode);
              customInstructions :=
                match (∅ : gmap string PromptComponent.t) !! slug mode
                        ≫= PromptComponent.customInstructions with
                | Some text => Some text
                | None => customInstructions mode
                end;
              groups := groups mode |}) l = l).
  { intros l. rewrite <- (map_id l) at 2. apply map_ext. intros [? ? ? ? ?].
    by rewrite lookup_empty. }
  split; [apply Hid|]. split; [apply Hid | done].
Qed.

(** The instructions of the list ([??]) against those of the details
    ([||], always a string), for a stored override [o] and a mode's own
    text [b]. *)
Lemma instructions_compare (o b : option string) :
  (match o with Some t => Some t | None => b end = Some (or_string o (or_string b ""))
   <-> is_Some (match o with Some t => Some t | None => b end)
       /\ ~ (o = Some "" /\ truthy_string b = true))
  /\ (nullish (match o with Some t => Some t | None => b end) ""
      = or_string o (or_string b "")
      <-> ~ (o = Some "" /\ truthy_string b = true)).
Proof.
  unfold nullish, or_string, truthy_string.
  destruct o as [t|], b as [u|]; simpl;
    try destruct (String.eqb_spec t "") as [->|Ht];
    try destruct (String.eqb_spec u "") as [->|Hu]; simpl;
    (split; [split; [intros Heq; split; [by eauto|]; intros [Ho Hb];
                       try discriminate; try congruence
                    | intros [[x Hx] Hn]; try discriminate; try done;
                        try (exfalso; apply Hn; by split)]
            | split; [intros Heq [Ho Hb]; try discriminate; try congruence
                     | intros Hn; try done; try (exfalso; apply Hn; by split)]]).
  all: try (injection Heq as Heq; congruence).
  all: try (injection Ho as Ho; congruence).
Qed.

(** X12: for custom modes of distinct slugs and a slug that resolves, the
    entry of the slug in [getAllModesWithPrompts] and the mode returned by
    [getFullModeDetails] (without a working directory) have the same slug,
    name and groups.  Their role definitions agree unless the stored override
    is the empty string over a non-empty text of the mode: the list keeps
    the empty override ([??]), the details fall back to the mode's own text
    ([||]).  Their instructions differ in kind: the details always carry a
    string, the list may leave them undefined.  They are equal exactly when
    the list's instructions are present and the stored override is not the
    empty string over a non-empty text of the mode; reading undefined as the
    empty string, they agree whenever the override is not such an empty
    string. *)
Theorem prompt_resolution_agrees customs (prompts : gmap string PromptComponent.t) s base :
  NoDup (map slug customs) ->
  getModeBySlug s (Some customs) = Some base ->
  exists listed detailed text,
    findBySlug s (getAllModesWithPrompts
                    {| globalState_customModes := Some customs;
                       globalState_customModePrompts := Some prompts |})
    = Some listed
    /\ getFullModeDetails s (Some customs) (Some prompts) None = Js.Return detailed
    /\ slug listed = slug detailed
    /\ name listed = name detailed
    /\ groups listed = groups detailed
    /\ (roleDefinition listed = roleDefinition detailed
        <-> ~ (prompts !! s ≫= PromptComponent.roleDefinition = Some ""
               /\ roleDefinition base <> ""))
    /\ customInstructions listed
       = match prompts !! s ≫= PromptComponent.customInstructions with
         | Some override => Some override
         | None => customInstructions base
         end
    /\ customInstructions detailed = Some text
    /\ (customInstructions listed = customInstructions detailed
        <-> is_Some (customInstructions listed)
            /\ ~ (prompts !! s ≫= PromptComponent.customInstructions = Some ""
                   /\ truthy_string (customInstructions base) = true))
    /\ (nullish (customInstructions listed) "" = text
        <-> ~ (prompts !! s ≫= PromptComponent.customInstructions = Some ""
               /\ truthy_string (customInstructions base) = true)).
Proof.
  intros Hnd Hbase. pose proof (getModeBySlug_slug _ _ _ Hbase) as Hslug.
  unfold getAllModesWithPrompts.
  cbn [default globalState_customModes globalState_customModePrompts].
  rewrite findBySlug_map by done.
  rewrite (findBySlug_getAllModes _ _ Hnd), Hbase.
  unfold getFullModeDetails. rewrite Hbase. simpl. rewrite Hslug.
  eexists _, _, _. split; [reflexivity|]. split; [reflexivity|]. simpl.
  split; [done|]. split; [done|]. split; [done|]. split; [|split; [done|]].
  - unfold nullish, or_string, truthy_string.
    destruct (prompts !! s ≫= PromptComponent.roleDefinition) as [text|]; simpl.
    + destruct (String.eqb_spec text "") as [->|Hne]; simpl.
      * split; [intros <- [_ Hbad]; done|]. intros Hnot.
        destruct (decide (roleDefinition base = "")) as [->|Hne]; [done|].
        exfalso. by apply Hnot.
      * split; [intros _ [[= ->] _]; done | done].
    + split; [intros _ [Hbad _]; discriminate | done].
  - split; [reflexivity|].
    apply (instructions_compare (prompts !! s ≫= PromptComponent.customInstructions)
             (customInstructions base)).
Qed.

(** X13: [getFullModeDetails] always has a base mode: the mode
    [getModeBySlug] finds, and the default mode "code" for a slug that does
    not resolve (its second lookup among the built-ins never decides).  The
    returned mode has the base mode's slug, name and groups, whatever the
    overrides and options, and instructions are always present; the call
    fails only when a working directory is given and
    [addCustomInstructions] fails. *)
Theorem getFullModeDetails_base s customModes customModePrompts options :
  let base := default modes_0 (getModeBySlug s customModes) in
  (getModeBySlug s customModes = None -> slug base = "code" /\ defaultModeSlug = "code")
  /\ match getFullModeDetails s customModes customModePrompts options with
     | Js.Return m =>
         slug m = slug base /\ name m = name base /\ groups m = groups base
         /\ is_Some (customInstructions m)
     | Js.Throw e =>
         truthy_string (options ≫= cwd) = true
         /\ exists base_text global_text,
             addCustomInstructions base_text global_text (default "" (options ≫= cwd)) s
               (options ≫= language) = Js.Throw e
     end
  /\ (truthy_string (options ≫= cwd) = false ->
      exists m, getFullModeDetails s customModes customModePrompts options = Js.Return m).
Proof.
  intros base. split; [intros Hnone; unfold base; by rewrite Hnone|].
  assert (Hbase : match getModeBySlug s customModes with
                  | Some mode => mode
                  | None => match findBySlug s modes with
                            | Some mode => mode
                            | None => modes_0
                            end
                  end = base).
  { unfold base. destruct (getModeBySlug s customModes) eqn:Hm; [done|].
    by rewrite (getModeBySlug_None_builtin _ _ Hm). }
  unfold getFullModeDetails. rewrite Hbase.
  destruct (truthy_string (options ≫= cwd)).
  - split; [|discriminate].
    destruct (addCustomInstructions _ _ _ _ _) as [text|e] eqn:Hadd; simpl; [by eauto|].
    split; [done|]. eauto.
  - simpl. split; [by eauto|]. intros _. by eexists.
Qed.

(** X14: [defaultPrompts] holds, for each slug, the texts of the built-in
    mode of that slug and nothing for other slugs; storing it as the prompt
    overrides changes nothing: [getAllModesWithPrompts] then returns the
    built-in modes as they are. *)
Theorem defaultPrompts_roundtrip :
  (forall s,
      defaultPrompts !! s
      = (fun mode => {| PromptComponent.roleDefinition := Some (roleDefinition mode);
                        PromptComponent.customInstructions := customInstructions mode |})
          <$> findBySlug s modes)
  /\ getAllModesWithPrompts
       {| globalState_customModes := None;
          globalState_customModePrompts := Some defaultPrompts |}
     = modes.
Proof.
  assert (Hlookup : forall s,
    defaultPrompts !! s
    = (fun mode => {| PromptComponent.roleDefinition := Some (roleDefinition mode);
                      PromptComponent.customInstructions := customInstructions mode |})
        <$> findBySlug s modes).
  { intros s. unfold defaultPrompts, Object_fromEntries.
    rewrite Object_fromEntries_lookup, lookup_empty.
    unfold findBySlug, modes.
    cbn [map rev app find fst snd slug codeMode architectMode askMode debugMode
         reviewerMode orchestratorMode].
    destruct (String.eqb_spec "code" s); destruct (String.eqb_spec "architect" s);
      destruct (String.eqb_spec "ask" s); destruct (String.eqb_spec "debug" s);
      destruct (String.eqb_spec "reviewer" s); destruct (String.eqb_spec "orchestrator" s);
      subst; try discriminate; reflexivity. }
  split; [exact Hlookup|].
  unfold getAllModesWithPrompts.
  cbn [default globalState_customModes globalState_customModePrompts].
  change (getAllModes (Some [])) with modes.
  transitivity (map id modes); [|apply map_id]. apply map_ext_in. intros mode Hin.
  assert (Hfind : findBySlug (slug mode) modes = Some mode).
  { simpl in Hin. destruct Hin as [<-|[<-|[<-|[<-|[<-|[<-|[]]]]]]]; reflexivity. }
  rewrite Hlookup, Hfind. simpl. destruct mode as [? ? ? [?|] ?]; reflexivity.
Qed.


End PromptOverrides.

(** ** The added properties on concrete calls *)

Lemma allowed_tool_is_listed_witness :
  isToolAllowed_sample "write_to_file" "architect" [] ReqUndefined
    (params [("path", Js.Str "notes.md"); ("content", Js.Str "x")]) None
  = Js.Return true
  /\ "write_to_file" ∈ @getToolsForMode sampleImports (groups (@architectMode sampleImports)).
Proof.
  split; [reflexivity|].
  exact (@allowed_tool_is_listed Fragment.engine sampleImports
           "write_to_file" "architect" [] ReqUndefined
           (params [("path", Js.Str "notes.md"); ("content", Js.Str "x")]) None eq_refl).
Defined.

Lemma pathless_call_is_membership_witness :
  isToolAllowed_sample "read_file" "ask" [] ReqUndefined None None = Js.Return true
  /\ isToolAllowed_sample "execute_command" "ask" [] ReqUndefined
       (params [("content", Js.Str "x")]) None
     = Js.Return false.
Proof.
  unfold isToolAllowed_sample. split.
  - rewrite (@pathless_call_is_membership Fragment.engine sampleImports
               "read_file" "ask" [] ReqUndefined None None (@askMode sampleImports));
      reflexivity.
  - rewrite (@pathless_call_is_membership Fragment.engine sampleImports
               "execute_command" "ask" [] ReqUndefined
               (params [("content", Js.Str "x")]) None (@askMode sampleImports));
      [reflexivity | reflexivity | by vm_compute].
Defined.

Lemma unscoped_mode_is_membership_witness :
  isToolAllowed_sample "write_to_file" "code" [] ReqUndefined
    (params [("path", Js.Str "app.ts"); ("content", Js.Str "x")]) None
  = Js.Return true.
Proof.
  unfold isToolAllowed_sample.
  rewrite (@unscoped_mode_is_membership Fragment.engine sampleImports
             "write_to_file" "code" []
             (params [("path", Js.Str "app.ts"); ("content", Js.Str "x")])
             (@codeMode sampleImports)).
  - reflexivity.
  - reflexivity.
  - intros g Hg. apply list_elem_of_In in Hg. simpl in Hg.
    destruct Hg as [<-|[<-|[<-|[<-|[<-|[<-|[]]]]]]]; reflexivity.
Defined.

Lemma resolver_throws_only_path_restriction_witness :
  exists mode options,
    @getModeBySlug sampleImports "architect" (Some []) = Some mode
    /\ Scoped edit options ∈ groups mode
    /\ fileRegex options = Some "\.md$".
Proof.
  destruct (@resolver_throws_only_path_restriction Fragment.engine sampleImports
              "write_to_file" "architect" [] ReqUndefined
              (params [("path", Js.Str "app.ts"); ("content", Js.Str "x")]) None
              (Js.FileRestrictionError
                 "This mode (🏗️ Architect) can only edit files matching pattern: \.md$ (Markdown files only). Got: app.ts")
              eq_refl)
    as (mode & options & pattern & Hmode & Hentry & Hregex & _ & _ & _ & _ & _ & Herror).
  exists mode, options. split; [exact Hmode|]. split; [exact Hentry|].
  rewrite Hregex. f_equal.
  injection Hmode as <-. apply list_elem_of_In in Hentry. simpl in Hentry.
  destruct Hentry as [Hg|[Hg|[Hg|[Hg|[Hg|[Hg|[]]]]]]]; try discriminate Hg.
  injection Hg as <-. by injection Hregex as <-.
Defined.

Lemma isCustomMode_lookup_witness :
  exists m, @getModeBySlug sampleImports "docs" (Some [docsMode]) = Some m
            /\ m ∈ [docsMode] /\ slug m = "docs".
Proof.
  exact (proj1 (proj2 (@isCustomMode_lookup sampleImports "docs" (Some [docsMode])))
           eq_refl).
Defined.

Lemma getAllModes_agrees_with_getModeBySlug_witness :
  @findBySlug "code" (@getAllModes sampleImports (Some [docsMode; customCode]))
  = @getModeBySlug sampleImports "code" (Some [docsMode; customCode]).
Proof.
  apply (proj1 (@getAllModes_agrees_with_getModeBySlug sampleImports)).
  cbn. repeat (apply NoDup_cons; split; [by apply includes_false|]). apply NoDup_nil_2.
Defined.

Lemma prompt_resolution_agrees_witness :
  exists listed detailed,
    @findBySlug "code"
      (@getAllModesWithPrompts sampleImports
         {| globalState_customModes := Some [docsMode; customCode];
            globalState_customModePrompts :=
              Some {[ "code" := {| PromptComponent.roleDefinition := Some "Reviewer of code";
                                   PromptComponent.customInstructions := None |} ]} |})
    = Some listed
    /\ @getFullModeDetails sampleImports sampleSections "code"
         (Some [docsMode; customCode])
         (Some {[ "code" := {| PromptComponent.roleDefinition := Some "Reviewer of code";
                               PromptComponent.customInstructions := None |} ]})
         None
       = Js.Return detailed
    /\ groups listed = groups detailed
    /\ roleDefinition listed = roleDefinition detailed
    /\ customInstructions listed = None
    /\ customInstructions detailed = Some "".
Proof.
  destruct (@prompt_resolution_agrees sampleImports sampleSections
              [docsMode; customCode]
              {[ "code" := {| PromptComponent.roleDefinition := Some "Reviewer of code";
                              PromptComponent.customInstructions := None |} ]}
              "code" customCode)
    as (listed & detailed & text & Hlisted & Hdetailed & _ & _ & Hgroups & Hrole
        & Hinstructions & Htext & _ & Hstring).
  - cbn. repeat (apply NoDup_cons; split; [by apply includes_false|]). apply NoDup_nil_2.
  - reflexivity.
  - exists listed, detailed. split; [exact Hlisted|]. split; [exact Hdetailed|].
    split; [exact Hgroups|].
    split; [apply Hrole; intros [Hempty _]; by vm_compute in Hempty|].
    assert (Hnone : customInstructions listed = None) by (by rewrite Hinstructions).
    split; [exact Hnone|]. rewrite Htext. f_equal.
    rewrite <- (proj2 Hstring), Hnone; [done|].
    intros [Hempty _]. by vm_compute in Hempty.
Defined.

Lemma getFullModeDetails_base_witness :
  slug (default (@modes_0 sampleImports) (@getModeBySlug sampleImports "no-such-mode" None))
  = "code"
  /\ exists m, @getFullModeDetails sampleImports sampleSections "no-such-mode" None None None
               = Js.Return m.
Proof.
  destruct (@getFullModeDetails_base sampleImports sampleSections
              "no-such-mode" None None None) as (Hdefault & _ & Hreturns).
  split; [exact (proj1 (Hdefault eq_refl)) | exact (Hreturns eq_refl)].
Defined.

(** ** Shadowing and repeated groups *)

Section Shadowing.

Context `{host : RegExpHost} `{imports : Imports}.

Lemma fold_Set_add_absorb l set :
  (forall x, x ∈ l -> x ∈ set) -> fold_left Set_add l set = set.
Proof.
  induction l as [|y l IH]; intros Hin; simpl; [done|].
  assert (Hy : Set_add set y = set).
  { unfold Set_add. assert (Hy : Js.includes set y = true)
      by apply includes_true, Hin, list_elem_of_here.
    by rewrite Hy. }
  rewrite Hy. apply IH. intros x Hx. by apply Hin, list_elem_of_further.
Qed.

Lemma groups_fold_names gs set :
  fold_left (fun toolSet group =>
               fold_left Set_add (tools (TOOL_GROUPS (getGroupName group))) toolSet)
            (map (fun g => Bare (getGroupName g)) gs) set
  = fold_left (fun toolSet group =>
                 fold_left Set_add (tools (TOOL_GROUPS (getGroupName group))) toolSet)
              gs set.
Proof. revert set. induction gs as [|g gs IH]; intros set; simpl; [done | apply IH]. Qed.

(** X16: for permissions a custom mode shadows the built-in of its slug
    entirely: the resolver behaves as if the first custom mode of the slug
    were the only custom mode, and as if there were no custom modes when none
    has the slug. *)
Theorem custom_mode_shadows_builtin tool s customModes toolRequirements toolParams
    experiments :
  isToolAllowedForMode tool s customModes toolRequirements toolParams experiments
  = match findBySlug s customModes with
    | Some custom =>
        isToolAllowedForMode tool s [custom] toolRequirements toolParams experiments
    | None => isToolAllowedForMode tool s [] toolRequirements toolParams experiments
    end.
Proof.
  unfold isToolAllowedForMode, getModeBySlug.
  destruct (findBySlug s customModes) as [custom|] eqn:Hfind; [|done].
  apply findBySlug_Some in Hfind as [Hslug _].
  assert (Hone : findBySlug s [custom] = Some custom).
  { unfold findBySlug. simpl. by rewrite Hslug, String.eqb_refl. }
  by rewrite Hone.
Qed.

(** X17: the tool list of a mode ignores the options of its entries (a
    scoped edit entry lists the edit tools like a bare one) and repeated
    entries: declaring again a group already declared leaves the list, order
    included, as it was. *)
Theorem getToolsForMode_ignores_options_and_repeats (gs : list GroupEntry) :
  getToolsForMode (map (fun g => Bare (getGroupName g)) gs) = getToolsForMode gs
  /\ forall g g',
      g ∈ gs -> getGroupName g' = getGroupName g ->
      getToolsForMode (gs ++ [g']) = getToolsForMode gs.
Proof.
  unfold getToolsForMode. split; [by rewrite groups_fold_names|].
  intros g g' Hg Hname. rewrite fold_left_app. simpl. rewrite Hname.
  rewrite (fold_Set_add_absorb (tools (TOOL_GROUPS (getGroupName g)))); [done|].
  intros x Hx. apply groups_fold_elem. right. by exists g.
Qed.

End Shadowing.

Lemma getToolsForMode_ignores_options_and_repeats_witness :
  @getToolsForMode sampleImports
    (groups (@architectMode sampleImports) ++ [Bare edit])
  = @getToolsForMode sampleImports (groups (@architectMode sampleImports)).
Proof.
  apply (proj2 (@getToolsForMode_ignores_options_and_repeats sampleImports
                  (groups (@architectMode sampleImports)))
           (Scoped edit {| fileRegex := Some "\.md$";
                           description := Some "Markdown files only" |})
           (Bare edit)).
  - apply list_elem_of_further, list_elem_of_here.
  - reflexivity.
Defined.

(** ** Tools that no group lists *)

Section Unlisted.

Context `{host : RegExpHost} `{imports : Imports}.

(** X19: a tool outside the always-available set that no tool group lists is
    denied, without an exception, for every mode (built-in or custom) and
    every requirements, parameters and experiments, absent ones included. *)
Theorem unlisted_tool_denied tool modeSlug customModes toolRequirements toolParams
    experiments :
  tool ∉ ALWAYS_AVAILABLE_TOOLS ->
  (forall group : ToolGroup, tool ∉ tools (TOOL_GROUPS group)) ->
  isToolAllowedForMode tool modeSlug customModes toolRequirements toolParams experiments
  = Js.Return false.
Proof.
  intros Hna Hunlisted. apply includes_false in Hna.
  unfold isToolAllowedForMode. rewrite Hna.
  destruct (experimentsDeny tool experiments); [done|].
  destruct (requirementsDeny tool toolRequirements); [done|].
  destruct (getModeBySlug modeSlug (Some customModes)) as [mode|]; [|done].
  apply forGroups_none. intros g _. apply Hunlisted.
Qed.

End Unlisted.

Lemma unlisted_tool_denied_witness :
  isToolAllowed_sample "run_tests" "code" [docsMode] ReqUndefined
    (params [("path", Js.Str "app.ts"); ("content", Js.Str "x")]) None
  = Js.Return false.
Proof.
  apply (@unlisted_tool_denied Fragment.engine sampleImports).
  - apply includes_false. reflexivity.
  - intros group. apply includes_false. by destruct group.
Defined.
